(** * WhatsApp chat analyzer: the chat parser [preprocess] of app.py

    A shallow embedding of the function [preprocess] and of the parts of
    the Python runtime it calls ([re.split], [re.findall], [str.replace],
    [str.strip], [pandas.to_datetime] with a format, the [.dt] accessors),
    followed by the properties of the parser. *)

From Stdlib Require Import Ascii String List NArith ZArith Bool Lia Sorted.
Import ListNotations.

Set Implicit Arguments.

(** ** Python strings

    A Python [str] is a sequence of Unicode code points. *)

Definition char := N.
Definition str := list char.

Definition ord (a : ascii) : char := N_of_ascii a.

(** [u "abc"] is the Python string ['abc'] (ASCII literals only). *)
Definition u (s : string) : str := map ord (list_ascii_of_string s).

Definition LF : char := 10%N.        (* '\n' *)
Definition SPACE : char := 32%N.     (* ' ' *)
Definition COLON : char := 58%N.     (* ':' *)
Definition NNBSP : char := 8239%N.   (* U+202F, narrow no-break space *)
Definition LRM : char := 8206%N.     (* U+200E, left-to-right mark *)

Definition in_range (lo hi c : N) : bool := (lo <=? c)%N && (c <=? hi)%N.

(** Code points of general category Nd, as in CPython's Unicode database
    (Unicode 14): each range starts at a digit zero and holds whole runs of
    ten digits.  [\d] in a str pattern and [int()] use this table. *)
Definition decimal_ranges : list (N * N) :=
  [ (48, 57); (1632, 1641); (1776, 1785); (1984, 1993); (2406, 2415);
    (2534, 2543); (2662, 2671); (2790, 2799); (2918, 2927); (3046, 3055);
    (3174, 3183); (3302, 3311); (3430, 3439); (3558, 3567); (3664, 3673);
    (3792, 3801); (3872, 3881); (4160, 4169); (4240, 4249); (6112, 6121);
    (6160, 6169); (6470, 6479); (6608, 6617); (6784, 6793); (6800, 6809);
    (6992, 7001); (7088, 7097); (7232, 7241); (7248, 7257); (42528, 42537);
    (43216, 43225); (43264, 43273); (43472, 43481); (43504, 43513);
    (43600, 43609); (44016, 44025); (65296, 65305); (66720, 66729);
    (68912, 68921); (69734, 69743); (69872, 69881); (69942, 69951);
    (70096, 70105); (70384, 70393); (70736, 70745); (70864, 70873);
    (71248, 71257); (71360, 71369); (71472, 71481); (71904, 71913);
    (72016, 72025); (72784, 72793); (73040, 73049); (73120, 73129);
    (92768, 92777); (92864, 92873); (93008, 93017); (120782, 120831);
    (123200, 123209); (123632, 123641); (125264, 125273);
    (130032, 130041) ]%N.

(** [str.isdecimal] on one character; the class [\d]. *)
Definition isdecimal (c : char) : bool :=
  existsb (fun r => in_range (fst r) (snd r) c) decimal_ranges.

(** The decimal value of a character of category Nd. *)
Definition digit_value (c : char) : option Z :=
  match find (fun r => in_range (fst r) (snd r) c) decimal_ranges with
  | Some r => Some (Z.of_N ((c - fst r) mod 10))
  | None => None
  end.

(** [str.isspace] on one character; the class [\s] and what [str.strip]
    removes. *)
Definition isspace (c : char) : bool :=
  in_range 9 13 c || in_range 28 32 c || (c =? 133)%N || (c =? 160)%N
  || (c =? 5760)%N || in_range 8192 8202 c || (c =? 8232)%N || (c =? 8233)%N
  || (c =? 8239)%N || (c =? 8287)%N || (c =? 12288)%N.

Definition is_char (a : char) (c : char) : bool := (c =? a)%N.
Definition one_of (l : list char) (c : char) : bool := existsb (N.eqb c) l.
Definition not_char (a : char) (c : char) : bool := negb (c =? a)%N.

(** [a in x] for a one-character [a]. *)
Definition contains (a : char) (x : str) : bool := existsb (N.eqb a) x.

(** [x.replace(old, new)] for a one-character [old]. *)
Definition replace (old : char) (new : str) (x : str) : str :=
  flat_map (fun c => if (c =? old)%N then new else [c]) x.

Fixpoint lstrip (x : str) : str :=
  match x with
  | c :: x' => if isspace c then lstrip x' else x
  | [] => []
  end.

Definition rstrip (x : str) : str := rev (lstrip (rev x)).

(** [x.strip()] *)
Definition strip (x : str) : str := rstrip (lstrip x).

(** ** Regular expressions

    The two patterns of the program are sequences of character classes,
    bounded or unbounded greedy repetitions of a class, and one capturing
    group.  The matcher is a backtracking one, as [re]'s: [m r s] lists, in
    the order [re] tries them, the ways [r] matches a prefix of [s], each as
    the captured groups and the text left. *)

Inductive regex : Type :=
| Cls (p : char -> bool)
| Rep (p : char -> bool) (lo : nat) (hi : option nat)
| Cat (a b : regex)
| Grp (a : regex).

Definition may_take (hi : option nat) : bool :=
  match hi with Some 0 => false | _ => true end.

Definition one_less (hi : option nat) : option nat := option_map pred hi.

(** Greedy repetition: the longest run first, then shorter ones. *)
Fixpoint rep (p : char -> bool) (lo : nat) (hi : option nat) (s : str)
  : list str :=
  let stop := if Nat.eqb lo 0 then [s] else [] in
  match s with
  | c :: s' =>
      if p c && may_take hi
      then rep p (pred lo) (one_less hi) s' ++ stop
      else stop
  | [] => stop
  end.

Fixpoint m (r : regex) (s : str) : list (list str * str) :=
  match r with
  | Cls p =>
      match s with
      | c :: s' => if p c then [([], s')] else []
      | [] => []
      end
  | Rep p lo hi => map (fun s1 => ([], s1)) (rep p lo hi s)
  | Cat a b =>
      flat_map (fun r1 =>
                  map (fun r2 => (fst r1 ++ fst r2, snd r2)) (m b (snd r1)))
               (m a s)
  | Grp a =>
      map (fun r1 =>
             (firstn (length s - length (snd r1)) s :: fst r1, snd r1))
          (m a s)
  end.

(** The match [re] reports at the start of [s]: the first in that order. *)
Definition match_at (r : regex) (s : str) : option (list str * str) :=
  hd_error (m r s).

(** [re.findall(r, s)] for a pattern without groups: the matched texts,
    leftmost first, not overlapping.  [skip] counts the characters of the
    current match still to pass.  (Both patterns of the program consume at
    least one character, see [pattern_consumes] and [delim_consumes]; empty
    matches are not modelled.) *)
Fixpoint re_findall_from (r : regex) (s : str) (skip : nat) : list str :=
  match s with
  | [] => []
  | _ :: s' =>
      match skip with
      | S k => re_findall_from r s' k
      | O =>
          match match_at r s with
          | Some (_, rest) =>
              let n := length s - length rest in
              firstn n s :: re_findall_from r s' (n - 1)
          | None => re_findall_from r s' 0
          end
      end
  end.

Definition re_findall (r : regex) (s : str) : list str :=
  re_findall_from r s 0.

(** [re.split(r, s, maxsplit)]: the pieces between the matches, each match
    followed by its groups.  [limit] is the number of splits still allowed
    ([None]: no limit), [cur] the piece being read, reversed. *)
Fixpoint re_split_from (r : regex) (limit : option nat) (s : str)
         (skip : nat) (cur : str) : list str :=
  match s with
  | [] => [rev cur]
  | c :: s' =>
      match skip with
      | S k => re_split_from r limit s' k cur
      | O =>
          if may_take limit then
            match match_at r s with
            | Some (groups, rest) =>
                rev cur :: groups ++
                  re_split_from r (one_less limit) s'
                                (length s - length rest - 1) []
            | None => re_split_from r limit s' 0 (c :: cur)
            end
          else re_split_from r limit s' 0 (c :: cur)
      end
  end.

(** [maxsplit = 0] is Python's "no limit". *)
Definition re_split (r : regex) (s : str) (maxsplit : nat) : list str :=
  re_split_from r (match maxsplit with O => None | S _ => Some maxsplit end)
                s 0 [].

Fixpoint cat (l : list regex) (last : regex) : regex :=
  match l with
  | [] => last
  | a :: l' => Cat a (cat l' last)
  end.

Definition lit (a : ascii) : regex := Cls (is_char (ord a)).
Definition digits (lo hi : nat) : regex := Rep isdecimal lo (Some hi).

(** [r'\d{1,2}/\d{1,2}/\d{2,4}, \d{1,2}:\d{2}\u202F?[APap][Mm] -'] *)
Definition pattern : regex :=
  cat [ digits 1 2; lit "/"; digits 1 2; lit "/"; digits 2 4; lit ",";
        lit " "; digits 1 2; lit ":"; digits 2 2;
        Rep (is_char NNBSP) 0 (Some 1);
        Cls (one_of (u "APap")); Cls (one_of (u "Mm")); lit " " ]
      (lit "-").

(** [r'([^:]+):\s'] *)
Definition delim : regex :=
  Cat (Grp (Rep (not_char COLON) 1 None)) (Cat (Cls (is_char COLON)) (Cls isspace)).

(** ** Monads

    Two effects occur: the backtracking of a regular expression with named
    fields (the format of [to_datetime]), and, in [preprocess] itself, the
    messages written to the page with [st.error] together with Python
    exceptions. *)

Class Monad (F : Type -> Type) : Type :=
  { ret : forall {A}, A -> F A;
    bind : forall {A B}, F A -> (A -> F B) -> F B }.

Notation "x <- c ;; k" := (bind c (fun x => k))
  (at level 61, c at next level, right associativity).
Notation "c ;; k" := (bind c (fun _ => k))
  (at level 61, right associativity).

(** A parser lists its results in the order a backtracking matcher finds
    them. *)
Definition parser (A : Type) : Type := str -> list (A * str).

#[export] Instance parser_monad : Monad parser :=
  { ret := fun A (a : A) s => [(a, s)];
    bind := fun A B (x : parser A) (f : A -> parser B) s =>
              flat_map (fun r => f (fst r) (snd r)) (x s) }.

Definition alt {A} (x y : parser A) : parser A := fun s => x s ++ y s.

Definition sat (p : char -> bool) : parser char :=
  fun s => match s with
           | c :: s' => if p c then [(c, s')] else []
           | [] => []
           end.

Definition chr (a : ascii) : parser char := sat (is_char (ord a)).
Definition among (s : string) : parser char := sat (one_of (u s)).

Definition seq2 (x y : parser char) : parser str :=
  c1 <- x ;; c2 <- y ;; ret [c1; c2].
Definition seq1 (x : parser char) : parser str :=
  c1 <- x ;; ret [c1].

(** [\s+] *)
Definition spaces : parser unit :=
  fun s => map (fun s1 => (tt, s1)) (rep isspace 1 None s).

(** ** [pandas.to_datetime(col, format='%d/%m/%y, %I:%M%p -', errors='coerce')]

    pandas turns the format into a regular expression, one alternative list
    per directive and [\s+] for each run of white space, compiled with
    IGNORECASE, matches it at the start of the text and asks that the match
    end where the text ends.  The fields are converted with [int]; an invalid
    calendar date is an error; with [errors='coerce'] every error gives NaT,
    here [None]. *)

Record Timestamp : Type :=
  { ts_year : Z; ts_month : Z; ts_day : Z; ts_hour : Z; ts_minute : Z }.

Definition digit19 : parser char := among "123456789".

(** [%d]: [3[0-1]|[1-2]\d|0[1-9]|[1-9]| [1-9]] *)
Definition dir_d : parser str :=
  alt (seq2 (among "3") (among "01"))
 (alt (seq2 (among "12") (sat isdecimal))
 (alt (seq2 (among "0") digit19)
 (alt (seq1 digit19)
      (seq2 (among " ") digit19)))).

(** [%m] and [%I]: [1[0-2]|0[1-9]|[1-9]] *)
Definition dir_m : parser str :=
  alt (seq2 (among "1") (among "012"))
 (alt (seq2 (among "0") digit19)
      (seq1 digit19)).

Definition dir_I : parser str := dir_m.

(** [%y]: [\d\d] *)
Definition dir_y : parser str := seq2 (sat isdecimal) (sat isdecimal).

(** [%M]: [[0-5]\d|\d] *)
Definition dir_M : parser str :=
  alt (seq2 (among "012345") (sat isdecimal)) (seq1 (sat isdecimal)).

(** [%p]: [am|pm], letters of either case *)
Definition dir_p : parser str :=
  alt (seq2 (among "aA") (among "mM")) (seq2 (among "pP") (among "mM")).

Record fields : Type :=
  { f_d : str; f_m : str; f_y : str; f_I : str; f_M : str; f_p : str }.

Definition format_regex : parser fields :=
  d <- dir_d ;; chr "/" ;; mo <- dir_m ;; chr "/" ;; y <- dir_y ;;
  chr "," ;; spaces ;; h <- dir_I ;; chr ":" ;; mi <- dir_M ;; p <- dir_p ;;
  spaces ;; chr "-" ;;
  ret {| f_d := d; f_m := mo; f_y := y; f_I := h; f_M := mi; f_p := p |}.

(** [int(x)] for white space and decimal digits (signs and underscores do
    not reach it). *)
Definition py_int (x : str) : option Z :=
  match strip x with
  | [] => None
  | ds => fold_left (fun acc c =>
                       match acc, digit_value c with
                       | Some n, Some d => Some (10 * n + d)%Z
                       | _, _ => None
                       end) ds (Some 0%Z)
  end.

Definition is_leap (y : Z) : bool :=
  ((y mod 4 =? 0) && negb (y mod 100 =? 0) || (y mod 400 =? 0))%Z.

Definition days_in_month (y mo : Z) : Z :=
  if (mo =? 2)%Z then (if is_leap y then 29 else 28)%Z
  else if ((mo =? 4) || (mo =? 6) || (mo =? 9) || (mo =? 11))%Z then 30%Z
  else 31%Z.

(** [.lower()] of the am/pm marker is ['pm']. *)
Definition is_pm (p : str) : bool :=
  match p with
  | c :: _ => one_of (u "pP") c
  | [] => false
  end.

Definition strptime (x : str) : option Timestamp :=
  match hd_error (format_regex x) with
  | Some (f, []) =>
      match py_int (f_d f), py_int (f_m f), py_int (f_y f),
            py_int (f_I f), py_int (f_M f) with
      | Some d, Some mo, Some y, Some h, Some mi =>
          let year := (if y <=? 68 then y + 2000 else y + 1900)%Z in
          let hour :=
            (if is_pm (f_p f)
             then (if h =? 12 then h else h + 12)
             else (if h =? 12 then 0 else h))%Z in
          if (d <=? days_in_month year mo)%Z
          then Some {| ts_year := year; ts_month := mo; ts_day := d;
                       ts_hour := hour; ts_minute := mi |}
          else None
      | _, _, _, _, _ => None
      end
  | _ => None
  end.

Definition to_datetime (col : list str) : list (option Timestamp) :=
  map strptime col.

(** *** The [.dt] accessors; NaT gives a missing value. *)

Definition month_names : list string :=
  [ "January"; "February"; "March"; "April"; "May"; "June"; "July";
    "August"; "September"; "October"; "November"; "December" ]%string.

Definition day_names : list string :=
  [ "Monday"; "Tuesday"; "Wednesday"; "Thursday"; "Friday"; "Saturday";
    "Sunday" ]%string.

(** Day of the week, Monday being 0 (pandas's [dayofweek]). *)
Definition dayofweek (y mo d : Z) : Z :=
  let y := (if mo <? 3 then y - 1 else y)%Z in
  let c := (y / 100)%Z in
  let g := (y - c * 100)%Z in
  let f := (5 * (c mod 4))%Z in
  let e := nth (Z.to_nat mo) [0; 0; 3; 3; 6; 1; 4; 6; 2; 5; 0; 3; 5]%Z 0%Z in
  let e := (if 2 <? mo then e - 1 else e)%Z in
  ((-1 + d + e + f + g + g / 4) mod 7)%Z.

Definition month_name (t : Timestamp) : string :=
  nth (Z.to_nat (ts_month t - 1)) month_names EmptyString.

Definition day_name_of (t : Timestamp) : string :=
  nth (Z.to_nat (dayofweek (ts_year t) (ts_month t) (ts_day t)))
      day_names EmptyString.

Definition dt {A} (f : Timestamp -> A) (col : list (option Timestamp))
  : list (option A) :=
  map (option_map f) col.

Definition isnull {A} (x : option A) : bool :=
  match x with None => true | Some _ => false end.

(** ** Exceptions and the Streamlit page

    An expression gives a value or raises an exception.  A statement of
    [preprocess] moreover takes the messages already shown on the page with
    [st.error] and gives back the messages shown since. *)

Inductive exn : Type := IndexError.

Inductive outcome (A : Type) : Type :=
| Returns (a : A)
| Raises (e : exn).

Arguments Raises {A} e.

#[export] Instance outcome_monad : Monad outcome :=
  { ret := fun A (a : A) => Returns a;
    bind := fun A B (x : outcome A) (f : A -> outcome B) =>
              match x with
              | Returns a => f a
              | Raises e => Raises e
              end }.

Definition page := list str.

Definition M (A : Type) : Type := page -> outcome A * page.

#[export] Instance M_monad : Monad M :=
  { ret := fun A (a : A) pg => (Returns a, pg);
    bind := fun A B (x : M A) (f : A -> M B) pg =>
              match x pg with
              | (Returns a, pg') => f a pg'
              | (Raises e, pg') => (Raises e, pg')
              end }.

(** An expression used as a statement leaves the page as it is. *)
Definition eval {A} (x : outcome A) : M A := fun pg => (x, pg).

(** [st.error(msg)] *)
Definition st_error (msg : str) : M unit := fun pg => (Returns tt, pg ++ [msg]).

(** [l[i]] *)
Definition getitem {A} (l : list A) (i : nat) : outcome A :=
  match nth_error l i with
  | Some a => Returns a
  | None => Raises IndexError
  end.

(** [col.apply(f)]: [f] on each element, first to last. *)
Fixpoint apply {A B} (f : A -> outcome B) (col : list A) : outcome (list B) :=
  match col with
  | [] => ret []
  | x :: col' => y <- f x ;; ys <- apply f col' ;; ret (y :: ys)
  end.

(** ** The data frame [preprocess] returns, column by column *)

Record DataFrame : Type :=
  { df_date : list (option Timestamp);
    df_user : list str;
    df_message : list str;
    df_year : list (option Z);
    df_month : list (option string);
    df_day : list (option Z);
    df_hour : list (option Z);
    df_minute : list (option Z);
    df_day_name : list (option string) }.

(** One record: the row of the frame at an index. *)
Record Row : Type :=
  { date : option Timestamp;
    user : str;
    message : str;
    year : option Z;
    month : option string;
    day : option Z;
    hour : option Z;
    minute : option Z;
    day_name : option string }.

(** [df.iloc[i]], when every column has an entry at [i]. *)
Definition iloc (df : DataFrame) (i : nat) : option Row :=
  match nth_error (df_date df) i, nth_error (df_user df) i,
        nth_error (df_message df) i, nth_error (df_year df) i,
        nth_error (df_month df) i, nth_error (df_day df) i,
        nth_error (df_hour df) i, nth_error (df_minute df) i,
        nth_error (df_day_name df) i with
  | Some d, Some us, Some ms, Some y, Some mo, Some dd, Some h, Some mi,
    Some dn =>
      Some {| date := d; user := us; message := ms; year := y; month := mo;
              day := dd; hour := h; minute := mi; day_name := dn |}
  | _, _, _, _, _, _, _, _, _ => None
  end.

(** [df.shape[0]] *)
Definition nrows (df : DataFrame) : nat := length (df_date df).

(** ** [preprocess] *)

Definition group_notification : str := u "group_notification".

Definition date_warning : str := u "Some dates are not properly formatted!".

Definition is_empty {A} (l : list A) : bool :=
  match l with [] => true | _ => false end.

(** [lambda x: re.split(r'([^:]+):\s', x, maxsplit=1)[1] if ':' in x
              else 'group_notification'] *)
Definition user_of (x : str) : outcome str :=
  if contains COLON x then getitem (re_split delim x 1) 1
  else Returns group_notification.

(** [lambda x: re.split(r'([^:]+):\s', x, maxsplit=1)[2] if ':' in x
              else x] *)
Definition message_of (x : str) : outcome str :=
  if contains COLON x then getitem (re_split delim x 1) 2
  else Returns x.

Definition preprocess (data : str) : M (option DataFrame) :=
  let messages := tl (re_split pattern data 0) in
  let dates := re_findall pattern data in
  if is_empty messages || is_empty dates then ret None
  else
    let min_len := Nat.min (length messages) (length dates) in
    let messages := firstn min_len messages in
    let dates := firstn min_len dates in
    let clean_dates :=
      map (fun d => strip (replace LRM [] (replace NNBSP [] d))) dates in
    let date := to_datetime clean_dates in
    (if existsb isnull date then st_error date_warning else ret tt) ;;
    user <- eval (apply user_of messages) ;;
    message <- eval (apply message_of messages) ;;
    ret (Some {| df_date := date;
                 df_user := user;
                 df_message := message;
                 df_year := dt ts_year date;
                 df_month := dt month_name date;
                 df_day := dt ts_day date;
                 df_hour := dt ts_hour date;
                 df_minute := dt ts_minute date;
                 df_day_name := dt day_name_of date |}).

(** The text between the matches of [pattern], and the matches. *)
Definition blocks (data : str) : list str := tl (re_split pattern data 0).
Definition stamps (data : str) : list str := re_findall pattern data.

(** [d.replace('\u202F', '').replace('\u200e', '').strip()] *)
Definition clean (d : str) : str :=
  strip (replace LRM [] (replace NNBSP [] d)).

(** * Notions used in the statements *)

(** The least number of characters a match of [r] takes. *)
Fixpoint min_width (r : regex) : nat :=
  match r with
  | Cls _ => 1
  | Rep _ lo _ => lo
  | Cat a b => min_width a + min_width b
  | Grp a => min_width a
  end.

(** The number of capturing groups of [r]. *)
Fixpoint ngroups (r : regex) : nat :=
  match r with
  | Cls _ | Rep _ _ _ => 0
  | Cat a b => ngroups a + ngroups b
  | Grp a => S (ngroups a)
  end.

(** A pattern that consumes at least one character and has no group. *)
Definition plain (r : regex) : Prop := 1 <= min_width r /\ ngroups r = 0.

(** Each match followed by its block, one after the other. *)
Fixpoint zip_app (xs ys : list str) : str :=
  match xs, ys with
  | x :: xs', y :: ys' => x ++ y ++ zip_app xs' ys'
  | _, _ => []
  end.

(** The sender delimiter in a block [b]: after [pre], a run [name] of
    characters other than a colon, not empty, then a colon and one
    white-space character; [rest] follows. *)
Definition delimiter_at (b pre name rest : str) : Prop :=
  exists ws, b = pre ++ name ++ COLON :: ws :: rest /\ name <> [] /\
             forallb (not_char COLON) name = true /\ isspace ws = true.

(** The block has a delimiter somewhere. *)
Definition delimited (b : str) : Prop :=
  exists pre name rest, delimiter_at b pre name rest.

(** The leftmost delimiter: none starts before it. *)
Definition first_delimiter (b pre name rest : str) : Prop :=
  delimiter_at b pre name rest /\
  forall pre' name' rest',
    delimiter_at b pre' name' rest' -> length pre <= length pre'.

(** A block the sender split accepts: a colon comes with a delimiter. *)
Definition splits (x : str) : Prop :=
  contains COLON x = true -> delimited x.

(** The frame with its calendar columns. *)
Definition frame (date : list (option Timestamp)) (user message : list str)
  : DataFrame :=
  {| df_date := date;
     df_user := user;
     df_message := message;
     df_year := dt ts_year date;
     df_month := dt month_name date;
     df_day := dt ts_day date;
     df_hour := dt ts_hour date;
     df_minute := dt ts_minute date;
     df_day_name := dt day_name_of date |}.

(** The record of a timestamp, a sender and a body. *)
Definition row (t : option Timestamp) (us ms : str) : Row :=
  {| date := t; user := us; message := ms;
     year := option_map ts_year t;
     month := option_map month_name t;
     day := option_map ts_day t;
     hour := option_map ts_hour t;
     minute := option_map ts_minute t;
     day_name := option_map day_name_of t |}.

(** What [st.error] adds to the page for a text. *)
Definition shown (data : str) : page :=
  if existsb isnull (to_datetime (map clean (stamps data)))
  then [date_warning] else [].

(** The marker the export writes in place of a picture or a recording; the
    metrics of the page count the bodies equal to it. *)
Definition media_omitted : str := u "<Media omitted>".

(** 2024-01-01 09:00 and 09:05. *)
Definition at_0900 : Timestamp :=
  {| ts_year := 2024; ts_month := 1; ts_day := 1; ts_hour := 9;
     ts_minute := 0 |}.
Definition at_0905 : Timestamp :=
  {| ts_year := 2024; ts_month := 1; ts_day := 1; ts_hour := 9;
     ts_minute := 5 |}.

(** The texts of the scenarios. *)
Definition two_messages : str :=
  u "1/1/24, 9:00am - Alice: Hello" ++ LF :: u "1/1/24, 9:05am - Bob: Hi there".
Definition encryption_notice : str :=
  u "1/1/24, 9:00am - Messages and calls are end-to-end encrypted.".
Definition two_lines : str :=
  u "1/1/24, 9:00am - Alice: line one" ++ LF :: u "line two" ++ LF ::
  u "1/1/24, 9:01am - Bob: reply".
Definition media_message : str := u "1/1/24, 9:00am - Alice: <Media omitted>".
Definition long_year : str := u "1/1/2024, 9:00am - Alice: Hi".
Definition time_of_day : str := u "1/1/24, 9:00am - 10:30".
Definition subject_change : str :=
  u "1/1/24, 9:00am - Alice: Hello" ++ LF ::
  u "1/1/24, 9:05am - Bob changed the subject to 10:30".
Definition named_as_sentinel : str :=
  u "1/1/24, 9:00am -group_notification: hi".

(** A timestamp with a year of four digits before a block with a colon
    that no white space follows. *)
Definition long_year_time_of_day : str := u "1/1/2024, 9:00am - 10:30".

(** A picture, then a reply: the media line is not the last of the chat. *)
Definition media_then_reply : str :=
  u "1/1/24, 9:00am - Alice: <Media omitted>" ++ LF ::
  u "1/1/24, 9:05am - Bob: Hi there".

Definition media_then_reply_frame : DataFrame :=
  frame [Some at_0900; Some at_0905] [u " Alice"; u " Bob"]
        [media_omitted ++ [LF]; u "Hi there"].

(** ** The page: the users to choose from and the metrics

    The script below [preprocess] lists the senders, keeps the records of
    the chosen one and computes four numbers from them. *)

Definition Overall : str := u "Overall".

(** [x == y] on strings. *)
Definition str_eqb (x y : str) : bool :=
  if list_eq_dec N.eq_dec x y then true else false.

(** [x < y] and [x <= y] on strings: by code point, a prefix first. *)
Fixpoint str_ltb (x y : str) : bool :=
  match x, y with
  | [], [] => false
  | [], _ :: _ => true
  | _ :: _, [] => false
  | c :: x', d :: y' => (c <? d)%N || ((c =? d)%N && str_ltb x' y')
  end.

Definition str_leb (x y : str) : bool := negb (str_ltb y x).

(** [col.unique()]: each value once, in the order of first appearance. *)
Fixpoint unique_from (seen col : list str) : list str :=
  match col with
  | [] => []
  | x :: col' =>
      if existsb (str_eqb x) seen then unique_from seen col'
      else x :: unique_from (x :: seen) col'
  end.

Definition unique (col : list str) : list str := unique_from [] col.

(** [l.sort()] on strings *)
Fixpoint insert_sorted (x : str) (l : list str) : list str :=
  match l with
  | [] => [x]
  | y :: l' => if str_leb x y then x :: l else y :: insert_sorted x l'
  end.

Fixpoint sort (l : list str) : list str :=
  match l with
  | [] => []
  | x :: l' => insert_sorted x (sort l')
  end.

(** [user_list = df['user'].unique().tolist(); user_list.sort();
     user_list.insert(0, "Overall")] *)
Definition user_list (df : DataFrame) : list str :=
  Overall :: sort (unique (df_user df)).

(** Strictly ascending in that order. *)
Definition ascending : list str -> Prop :=
  StronglySorted (fun x y => str_ltb x y = true).

(** [col[mask]] *)
Fixpoint select {A} (mask : list bool) (col : list A) : list A :=
  match mask, col with
  | b :: mask', x :: col' =>
      if b then x :: select mask' col' else select mask' col'
  | _, _ => []
  end.

(** [df[mask]] *)
Definition loc (df : DataFrame) (mask : list bool) : DataFrame :=
  {| df_date := select mask (df_date df);
     df_user := select mask (df_user df);
     df_message := select mask (df_message df);
     df_year := select mask (df_year df);
     df_month := select mask (df_month df);
     df_day := select mask (df_day df);
     df_hour := select mask (df_hour df);
     df_minute := select mask (df_minute df);
     df_day_name := select mask (df_day_name df) |}.

(** [filtered_df = df if selected_user == "Overall"
                   else df[df['user'] == selected_user]] *)
Definition filtered_df (df : DataFrame) (selected_user : str) : DataFrame :=
  if str_eqb selected_user Overall then df
  else loc df (map (fun us => str_eqb us selected_user) (df_user df)).

(** [filtered_df.shape[0]] *)
Definition total_messages (fd : DataFrame) : nat := nrows fd.

(** [x.split()]: the runs of characters other than white space. *)
Fixpoint split_from (x cur : str) : list str :=
  match x with
  | [] => if is_empty cur then [] else [rev cur]
  | c :: x' =>
      if isspace c
      then (if is_empty cur then split_from x' []
            else rev cur :: split_from x' [])
      else split_from x' (c :: cur)
  end.

Definition split (x : str) : list str := split_from x [].

(** [filtered_df['message'].apply(lambda x: len(x.split())).sum()] *)
Definition total_words (fd : DataFrame) : nat :=
  list_sum (map (fun x => length (split x)) (df_message fd)).

(** [filtered_df[filtered_df['message'] == '<Media omitted>'].shape[0]] *)
Definition media_messages (fd : DataFrame) : nat :=
  nrows (loc fd (map (fun x => str_eqb x media_omitted) (df_message fd))).

(** [re.search(r, s)] as a truth value: a match at some position. *)
Fixpoint re_search (r : regex) (s : str) : bool :=
  match match_at r s with
  | Some _ => true
  | None => match s with
            | [] => false
            | _ :: s' => re_search r s'
            end
  end.

(** ['http'] as a pattern *)
Definition http : regex := cat [lit "h"; lit "t"; lit "t"] (lit "p").

(** [filtered_df['message'].str.contains('http').sum()] *)
Definition link_count (fd : DataFrame) : nat :=
  length (filter (re_search http) (df_message fd)).

(** The characters a match of [r] can hold. *)
Fixpoint chars_of (r : regex) (c : char) : bool :=
  match r with
  | Cls p => p c
  | Rep p _ _ => p c
  | Cat a b => chars_of a c || chars_of b c
  | Grp a => chars_of a c
  end.

(** A timestamp as some exports write it, with a narrow no-break space
    before the marker of the half of the day. *)
Definition narrow_space_text : str :=
  u "1/1/24, 9:00" ++ NNBSP :: u "am - Alice: Hello".

(** A frame whose columns all have as many entries as it has records. *)
Definition rect (df : DataFrame) : Prop :=
  length (df_user df) = nrows df /\ length (df_message df) = nrows df /\
  length (df_year df) = nrows df /\ length (df_month df) = nrows df /\
  length (df_day df) = nrows df /\ length (df_hour df) = nrows df /\
  length (df_minute df) = nrows df /\ length (df_day_name df) = nrows df.

(** A chat of three messages, two of them pictures. *)
Definition two_pictures : str :=
  u "1/1/24, 9:00am - Alice: <Media omitted>" ++ LF ::
  u "1/1/24, 9:05am - Bob: see https://example.org" ++ LF ::
  u "1/1/24, 9:06am - Alice: <Media omitted>".

Definition at_0906 : Timestamp :=
  {| ts_year := 2024; ts_month := 1; ts_day := 1; ts_hour := 9;
     ts_minute := 6 |}.

Definition two_pictures_frame : DataFrame :=
  frame [Some at_0900; Some at_0905; Some at_0906]
        [u " Alice"; u " Bob"; u " Alice"]
        [media_omitted ++ [LF]; u "see https://example.org" ++ [LF];
         media_omitted].

(** ** The page: activity by day of the week and by hour *)

(** [dow_order] *)
Definition dow_order : list string :=
  [ "Monday"; "Tuesday"; "Wednesday"; "Thursday"; "Friday"; "Saturday";
    "Sunday" ]%string.

(** The entries of a column that are a given value; a missing entry is
    none. *)
Definition is_value {A} (eqb : A -> A -> bool) (v : A) (x : option A)
  : bool :=
  match x with Some y => eqb y v | None => false end.

(** [col.value_counts()] at a label: the number of entries equal to it. *)
Definition count_value {A} (eqb : A -> A -> bool) (v : A)
           (col : list (option A)) : nat :=
  length (filter (is_value eqb v) col).

(** [filtered_df['day_name'].value_counts().reindex(dow_order)]: for each
    day of [dow_order] the number of records of that day; a day that
    [value_counts] does not list is left without a number (NaN). *)
Definition day_activity (fd : DataFrame) : list (string * option nat) :=
  map (fun d =>
         let n := count_value String.eqb d (df_day_name fd) in
         (d, if Nat.eqb n 0 then None else Some n))
      dow_order.

(** The labels of [col.value_counts().sort_index()]: the values of the
    column, each once, ascending; missing entries are dropped. *)
Fixpoint insert_index (x : Z) (l : list Z) : list Z :=
  match l with
  | [] => [x]
  | y :: l' =>
      if (x <? y)%Z then x :: l
      else if (x =? y)%Z then l
      else y :: insert_index x l'
  end.

Fixpoint sorted_index (col : list (option Z)) : list Z :=
  match col with
  | [] => []
  | Some v :: col' => insert_index v (sorted_index col')
  | None :: col' => sorted_index col'
  end.

(** [filtered_df['hour'].value_counts().sort_index()] *)
Definition hourly_activity (fd : DataFrame) : list (Z * nat) :=
  map (fun h => (h, count_value Z.eqb h (df_hour fd)))
      (sorted_index (df_hour fd)).

(** The records of a frame that have a timestamp. *)
Definition dated (fd : DataFrame) : nat :=
  length (filter (fun d => negb (isnull d)) (df_date fd)).

(** The records of a frame whose timestamp falls on the day of the week of
    index [i] (Monday is 0), and those whose timestamp has the hour [h]. *)
Definition records_on_day (i : nat) (fd : DataFrame) : nat :=
  length
    (filter (fun x =>
               match x with
               | Some t =>
                   (dayofweek (ts_year t) (ts_month t) (ts_day t)
                    =? Z.of_nat i)%Z
               | None => false
               end)
            (df_date fd)).

Definition records_in_hour (h : Z) (fd : DataFrame) : nat :=
  length
    (filter (fun x =>
               match x with
               | Some t => (ts_hour t =? h)%Z
               | None => false
               end)
            (df_date fd)).

(** A chat whose second timestamp has a year of four digits. *)
Definition one_undated : str :=
  u "1/1/24, 9:00am - Alice: Hello" ++ LF ::
  u "1/1/2024, 9:05am - Bob: Hi there".

Definition one_undated_frame : DataFrame :=
  frame [Some at_0900; None] [u " Alice"; u " Bob"]
        [u "Hello" ++ [LF]; u "Hi there"].

(** * Properties of the matcher *)

Lemma rep_sound p s : forall lo hi r,
  In r (rep p lo hi s) ->
  exists t, s = t ++ r /\ forallb p t = true /\ lo <= length t.
Proof.
  induction s as [|c s IH]; intros lo hi r; simpl.
  - destruct (Nat.eqb_spec lo 0); simpl; [|tauto].
    intros [<-|[]]. exists []. subst lo. auto.
  - assert (Hstop : In r (if Nat.eqb lo 0 then [c :: s] else []) ->
                    exists t, c :: s = t ++ r /\ forallb p t = true
                              /\ lo <= length t).
    { destruct (Nat.eqb_spec lo 0); simpl; [|tauto].
      intros [<-|[]]. exists []. subst lo. auto. }
    destruct (p c) eqn:Hp; simpl; [|exact Hstop].
    destruct (may_take hi); [|exact Hstop].
    intros Hin. apply in_app_or in Hin. destruct Hin as [Hin|Hin]; [|auto].
    apply IH in Hin. destruct Hin as (t & -> & Ht & Hlo).
    exists (c :: t). simpl. rewrite Hp, Ht. repeat split; auto. lia.
Qed.

Lemma m_sound r : forall s g rest,
  In (g, rest) (m r s) ->
  exists t, s = t ++ rest /\ min_width r <= length t.
Proof.
  induction r as [p|p lo hi|a IHa b IHb|a IHa]; intros s g rest; simpl.
  - destruct s as [|c s]; [intros []|].
    destruct (p c); simpl; [|tauto].
    intros [H|[]]. inversion H; subst. exists [c]. auto.
  - rewrite in_map_iff. intros (s1 & H & Hin). inversion H; subst.
    apply rep_sound in Hin. destruct Hin as (t & -> & _ & Hlo). eauto.
  - rewrite in_flat_map. intros ([g1 s1] & H1 & H2).
    rewrite in_map_iff in H2. destruct H2 as ([g2 s2] & H & H2).
    simpl in *. inversion H; subst.
    apply IHa in H1. apply IHb in H2.
    destruct H1 as (t1 & -> & L1). destruct H2 as (t2 & -> & L2).
    exists (t1 ++ t2). rewrite <- app_assoc, length_app. split; auto. lia.
  - rewrite in_map_iff. intros ([g1 s1] & H & Hin). simpl in *.
    inversion H; subst. eauto.
Qed.

Lemma m_groups r : forall s g rest,
  In (g, rest) (m r s) -> length g = ngroups r.
Proof.
  induction r as [p|p lo hi|a IHa b IHb|a IHa]; intros s g rest; simpl.
  - destruct s as [|c s]; [intros []|].
    destruct (p c); simpl; [|tauto].
    intros [H|[]]. inversion H; subst. reflexivity.
  - rewrite in_map_iff. intros (s1 & H & _). inversion H; subst. reflexivity.
  - rewrite in_flat_map. intros ([g1 s1] & H1 & H2).
    rewrite in_map_iff in H2. destruct H2 as ([g2 s2] & H & H2).
    simpl in *. inversion H; subst.
    rewrite length_app. erewrite IHa, IHb; eauto.
  - rewrite in_map_iff. intros ([g1 s1] & H & Hin). simpl in *.
    inversion H; subst. simpl. erewrite IHa; eauto.
Qed.

Lemma match_at_in r s g rest :
  match_at r s = Some (g, rest) -> In (g, rest) (m r s).
Proof.
  unfold match_at. destruct (m r s); simpl; [discriminate|].
  intros H. inversion H. auto.
Qed.

Lemma plain_match r s g rest :
  plain r -> match_at r s = Some (g, rest) ->
  g = [] /\ exists t, s = t ++ rest /\ 1 <= length t.
Proof.
  intros [Hw Hg] H. apply match_at_in in H. split.
  - apply m_groups in H. rewrite Hg in H. now destruct g.
  - apply m_sound in H. destruct H as (t & -> & L). exists t. split; auto. lia.
Qed.

Lemma pattern_consumes : plain pattern.
Proof. split; [vm_compute; lia | reflexivity]. Qed.

Lemma delim_consumes : 1 <= min_width delim.
Proof. vm_compute; lia. Qed.

(** * [re.split] and [re.findall] walk the text in step *)

Section Scan.

Variable r : regex.
Hypothesis r_plain : plain r.

Lemma split_findall_from : forall s skip cur,
  exists first rest,
    re_split_from r None s skip cur = first :: rest /\
    length rest = length (re_findall_from r s skip) /\
    rev cur ++ skipn skip s
    = first ++ zip_app (re_findall_from r s skip) rest.
Proof.
  induction s as [|c s IH]; intros skip cur.
  - exists (rev cur), []. rewrite skipn_nil. simpl. auto.
  - destruct skip as [|k].
    + cbn [re_split_from re_findall_from may_take one_less option_map].
      destruct (match_at r (c :: s)) as [[g rest]|] eqn:Hm.
      * destruct (@plain_match _ _ _ _ r_plain Hm) as (-> & t & Ht & Lt).
        assert (En : length (c :: s) - length rest = length t)
          by (rewrite Ht, length_app; lia).
        rewrite En.
        assert (Ef : firstn (length t) (c :: s) = t).
        { rewrite Ht, firstn_app, firstn_all, Nat.sub_diag, firstn_O.
          apply app_nil_r. }
        assert (Es : skipn (length t - 1) s = rest).
        { destruct t as [|c' t]; [simpl in Lt; lia|].
          simpl in Ht. inversion Ht; subst. simpl. rewrite Nat.sub_0_r.
          now rewrite skipn_app, skipn_all, Nat.sub_diag. }
        rewrite Ef.
        destruct (IH (length t - 1) []) as (f' & r' & E & L & C).
        exists (rev cur), (f' :: r'). rewrite E.
        split; [reflexivity|].
        split; [simpl; now rewrite L|].
        cbn [zip_app]. rewrite <- C, Es. cbn [rev app skipn].
        now rewrite Ht.
      * destruct (IH 0 (c :: cur)) as (f' & r' & E & L & C).
        exists f', r'. rewrite E. repeat split; auto.
        rewrite <- C. simpl. now rewrite <- app_assoc.
    + cbn [re_split_from re_findall_from skipn].
      destruct (IH k cur) as (f' & r' & E & L & C).
      exists f', r'. auto.
Qed.

(** The pieces after the first are as many as the matches. *)
Lemma split_findall_length s :
  length (tl (re_split r s 0)) = length (re_findall r s).
Proof.
  unfold re_split, re_findall.
  destruct (split_findall_from s 0 []) as (f & l & E & L & _).
  now rewrite E.
Qed.

(** The text is the first piece, then each match followed by its piece. *)
Lemma split_findall_text s :
  s = hd [] (re_split r s 0) ++ zip_app (re_findall r s) (tl (re_split r s 0)).
Proof.
  unfold re_split, re_findall.
  destruct (split_findall_from s 0 []) as (f & l & E & _ & C).
  rewrite E. simpl in *. exact C.
Qed.

End Scan.

(** * The sender delimiter *)

Lemma app_firstn_length (t rest : str) :
  firstn (length (t ++ rest) - length rest) (t ++ rest) = t.
Proof.
  rewrite length_app, Nat.add_sub, firstn_app, firstn_all, Nat.sub_diag.
  rewrite firstn_O. apply app_nil_r.
Qed.

Lemma delim_sound s g rest :
  In (g, rest) (m delim s) ->
  exists name ws,
    g = [name] /\ s = name ++ COLON :: ws :: rest /\ name <> [] /\
    forallb (not_char COLON) name = true /\ isspace ws = true.
Proof.
  unfold delim. cbn [m]. rewrite in_flat_map.
  intros ([g1 s1] & H1 & H2).
  rewrite map_map, in_map_iff in H1. destruct H1 as (s1' & E & H1).
  cbn [fst snd] in E. inversion E; subst s1' g1; clear E.
  apply rep_sound in H1. destruct H1 as (t & -> & Ht & Lt).
  rewrite app_firstn_length in H2. cbn [fst snd] in H2.
  rewrite in_map_iff in H2. destruct H2 as ([g2 s2] & E & H2).
  cbn [fst snd] in E. inversion E; subst; clear E.
  rewrite in_flat_map in H2. destruct H2 as ([g3 s3] & H3 & H4).
  destruct s1 as [|c1 s1]; [destruct H3|].
  destruct (is_char COLON c1) eqn:Hc; [|destruct H3].
  destruct H3 as [E|[]]. inversion E; subst; clear E. cbn [fst snd] in H4.
  rewrite in_map_iff in H4. destruct H4 as ([g4 s4] & E & H4).
  cbn [fst snd] in E. inversion E; subst; clear E.
  destruct s3 as [|c2 s3]; [destruct H4|].
  destruct (isspace c2) eqn:Hs; [|destruct H4].
  destruct H4 as [E|[]]. inversion E; subst; clear E.
  apply N.eqb_eq in Hc. subst c1.
  exists t, c2. repeat split; auto.
  intros ->. simpl in Lt. lia.
Qed.

Lemma rep_greedy p c t : forall name lo,
  forallb p name = true -> p c = false -> lo <= length name ->
  exists l, rep p lo None (name ++ c :: t) = (c :: t) :: l.
Proof.
  induction name as [|a name IH]; intros lo Hn Hc Hlo.
  - simpl in *. assert (lo = 0) by lia. subst. rewrite Hc. simpl. eauto.
  - simpl in Hn. apply andb_prop in Hn. destruct Hn as [Ha Hn].
    cbn [app rep]. rewrite Ha. cbn [may_take andb one_less option_map].
    destruct (IH (pred lo) Hn Hc) as [l E]; [simpl in Hlo; lia|].
    rewrite E. cbn [app]. eauto.
Qed.

Lemma delim_complete name ws rest :
  name <> [] -> forallb (not_char COLON) name = true -> isspace ws = true ->
  match_at delim (name ++ COLON :: ws :: rest) = Some ([name], rest).
Proof.
  intros Hne Hn Hs. unfold match_at, delim. cbn [m].
  destruct (@rep_greedy (not_char COLON) COLON (ws :: rest) name 1 Hn)
    as [l E]; [reflexivity | destruct name; [congruence | simpl; lia] |].
  rewrite E. cbn [map flat_map fst snd].
  rewrite app_firstn_length.
  replace (is_char COLON COLON) with true by reflexivity.
  cbn [flat_map map fst snd app]. rewrite Hs. reflexivity.
Qed.

Lemma re_split_limit0 r : forall s skip cur,
  re_split_from r (Some 0) s skip cur = [rev cur ++ skipn skip s].
Proof.
  induction s as [|c s IH]; intros skip cur.
  - simpl. now rewrite skipn_nil, app_nil_r.
  - destruct skip as [|k]; cbn [re_split_from may_take skipn].
    + rewrite IH. simpl. now rewrite <- app_assoc.
    + apply IH.
Qed.

(** One split at most: either no match of [delim] at any position and the
    text comes back whole, or the text before the leftmost match, the name
    and the text after the match. *)
Lemma split_delim_from : forall s cur,
  (re_split_from delim (Some 1) s 0 cur = [rev cur ++ s] /\
   forall t1 t2, s = t1 ++ t2 -> match_at delim t2 = None)
  \/
  (exists p t name rest,
     s = p ++ t /\
     re_split_from delim (Some 1) s 0 cur = [rev cur ++ p; name; rest] /\
     match_at delim t = Some ([name], rest) /\
     forall t1 t2, s = t1 ++ t2 -> length t1 < length p ->
                   match_at delim t2 = None).
Proof.
  induction s as [|c s IH]; intros cur.
  - left. split; [simpl; now rewrite app_nil_r|].
    intros t1 t2 E. symmetry in E. apply app_eq_nil in E.
    destruct E as [_ ->]. reflexivity.
  - cbn [re_split_from may_take one_less option_map pred].
    destruct (match_at delim (c :: s)) as [[g rest]|] eqn:Hm.
    + right. pose proof (match_at_in _ _ Hm) as Hin.
      apply delim_sound in Hin.
      destruct Hin as (name & ws & -> & E & Hne & Hn & Hs).
      exists [], (c :: s), name, rest. rewrite re_split_limit0.
      cbn [app rev length skipn]. rewrite app_nil_r.
      split; [reflexivity|].
      split; [|split; [exact Hm|intros; lia]].
      f_equal. f_equal. f_equal.
      destruct name as [|a name]; [congruence|].
      simpl in E. inversion E; subst.
      cbn [length]. rewrite length_app. cbn [length].
      replace (S (length name + S (S (length rest))) - length rest - 1)
        with (length name + 2) by lia.
      rewrite skipn_app, skipn_all2 by lia.
      replace (length name + 2 - length name) with 2 by lia. reflexivity.
    + destruct (IH (c :: cur))
        as [[E H]|(p & t & name & rest & Es & E & Hp & H)].
      * left. split.
        { rewrite E. simpl. now rewrite <- app_assoc. }
        intros [|c1 t1] t2 E2.
        { simpl in E2. subst. exact Hm. }
        { simpl in E2. inversion E2; subst. eapply H; eauto. }
      * right. exists (c :: p), t, name, rest. split; [|split; [|split]].
        { simpl. now rewrite Es. }
        { rewrite E. simpl. now rewrite <- app_assoc. }
        { exact Hp. }
        intros [|c1 t1] t2 E2 L2.
        { simpl in E2. subst t2. exact Hm. }
        { simpl in E2. inversion E2; subst c1. eapply H; eauto.
          simpl in L2. lia. }
Qed.

Lemma prefix_same_length (p p' t t' : str) :
  p ++ t = p' ++ t' -> length p = length p' -> p = p' /\ t = t'.
Proof.
  revert p'. induction p as [|a p IH]; intros [|a' p'] E L;
    simpl in *; try discriminate; auto.
  inversion E; subst. destruct (IH p') as [-> ->]; auto.
Qed.

Lemma delimiter_at_match b pre name rest :
  delimiter_at b pre name rest ->
  exists t, b = pre ++ t /\ match_at delim t = Some ([name], rest).
Proof.
  intros (ws & -> & Hne & Hn & Hs).
  eexists. split; [reflexivity|]. now apply delim_complete.
Qed.

Lemma match_delimiter_at pre t rest g :
  match_at delim t = Some (g, rest) -> 
  exists name, g = [name] /\ delimiter_at (pre ++ t) pre name rest.
Proof.
  intros Hm. apply match_at_in, delim_sound in Hm.
  destruct Hm as (n & ws & -> & -> & Hne & Hn & Hs).
  exists n. split; auto. exists ws. auto.
Qed.

(** [re.split(r'([^:]+):\s', x, maxsplit=1)] *)
Lemma re_split_delim_none x :
  ~ delimited x -> re_split delim x 1 = [x].
Proof.
  intros Hno. unfold re_split.
  destruct (split_delim_from x [])
    as [[E _]|(p & t & name & rest & Es & E & Hp & H)].
  - exact E.
  - exfalso. apply Hno.
    destruct (@match_delimiter_at p _ _ _ Hp) as (n & _ & Hd).
    rewrite <- Es in Hd. now exists p, n, rest.
Qed.

Lemma re_split_delim_first x pre name rest :
  first_delimiter x pre name rest -> re_split delim x 1 = [pre; name; rest].
Proof.
  intros [Hd Hfirst]. unfold re_split.
  destruct (@delimiter_at_match _ _ _ _ Hd) as (t & Ex & Hm).
  destruct (split_delim_from x [])
    as [[_ H]|(p & t' & n & r & Es & E & Hp & H)].
  - rewrite (H _ _ Ex) in Hm. discriminate.
  - destruct (@match_delimiter_at p _ _ _ Hp) as (n' & En & Hd').
    inversion En; subst n'; clear En.
    rewrite <- Es in Hd'. apply Hfirst in Hd'.
    assert (Lp : length pre = length p).
    { destruct (Nat.lt_ge_cases (length pre) (length p)) as [Hlt|Hge]; [|lia].
      rewrite (H _ _ Ex Hlt) in Hm. discriminate. }
    rewrite Ex in Es. apply prefix_same_length in Es; [|exact Lp].
    destruct Es as [<- <-]. rewrite Hm in Hp. inversion Hp; subst.
    exact E.
Qed.

Lemma delimited_colon x : delimited x -> contains COLON x = true.
Proof.
  intros (pre & name & rest & ws & -> & _).
  apply existsb_exists. exists COLON. split; [|reflexivity].
  rewrite !in_app_iff. simpl. auto.
Qed.

Lemma first_delimiter_exists x :
  delimited x -> exists pre name rest, first_delimiter x pre name rest.
Proof.
  intros Hd.
  destruct (split_delim_from x [])
    as [[_ H]|(p & t' & n & r & Es & E & Hp & H)].
  - destruct Hd as (pre & name & rest & Hd).
    destruct (@delimiter_at_match _ _ _ _ Hd) as (t & Ex & Hm).
    rewrite (H _ _ Ex) in Hm. discriminate.
  - destruct (@match_delimiter_at p _ _ _ Hp) as (n' & En & Hd').
    inversion En; subst n'; clear En.
    rewrite <- Es in Hd'.
    exists p, n, r. split; [exact Hd'|].
    intros pre' name' rest' Hd2.
    destruct (@delimiter_at_match _ _ _ _ Hd2) as (t & Ex & Hm).
    destruct (Nat.lt_ge_cases (length pre') (length p)) as [Hlt|Hge]; [|lia].
    rewrite (H _ _ Ex Hlt) in Hm. discriminate.
Qed.

Lemma delimited_dec x : delimited x \/ ~ delimited x.
Proof.
  destruct (split_delim_from x [])
    as [[_ H]|(p & t' & n & r & Es & E & Hp & H)].
  - right. intros (pre & name & rest & Hd).
    destruct (@delimiter_at_match _ _ _ _ Hd) as (t & Ex & Hm).
    rewrite (H _ _ Ex) in Hm. discriminate.
  - left. destruct (@match_delimiter_at p _ _ _ Hp) as (n' & _ & Hd).
    rewrite <- Es in Hd. now exists p, n', r.
Qed.

Lemma user_of_plain x :
  contains COLON x = false ->
  user_of x = Returns group_notification /\ message_of x = Returns x.
Proof. intros H. unfold user_of, message_of. now rewrite H. Qed.

Lemma user_of_first x pre name rest :
  first_delimiter x pre name rest ->
  user_of x = Returns name /\ message_of x = Returns rest.
Proof.
  intros H. unfold user_of, message_of.
  rewrite delimited_colon by (destruct H as [H _]; now exists pre, name, rest).
  now rewrite (re_split_delim_first H).
Qed.

Lemma user_of_raises x :
  contains COLON x = true -> ~ delimited x ->
  user_of x = Raises IndexError /\ message_of x = Raises IndexError.
Proof.
  intros Hc Hd. unfold user_of, message_of.
  now rewrite Hc, (re_split_delim_none Hd).
Qed.

Lemma user_of_returns x :
  (exists s, user_of x = Returns s) <-> splits x.
Proof.
  unfold splits. split.
  - intros [s Hs] Hc. destruct (delimited_dec x) as [Hd|Hd]; [exact Hd|].
    destruct (user_of_raises Hc Hd) as [E _]. congruence.
  - intros H. destruct (contains COLON x) eqn:Hc.
    + destruct (first_delimiter_exists (H eq_refl)) as (p & n & r & Hf).
      exists n. apply (user_of_first Hf).
    + eexists. apply (@user_of_plain x Hc).
Qed.

Lemma message_of_returns x :
  (exists s, message_of x = Returns s) <-> splits x.
Proof.
  unfold splits. split.
  - intros [s Hs] Hc. destruct (delimited_dec x) as [Hd|Hd]; [exact Hd|].
    destruct (user_of_raises Hc Hd) as [_ E]. congruence.
  - intros H. destruct (contains COLON x) eqn:Hc.
    + destruct (first_delimiter_exists (H eq_refl)) as (p & n & r & Hf).
      exists r. apply (user_of_first Hf).
    + eexists. apply (@user_of_plain x Hc).
Qed.

Lemma apply_returns {A B} (f : A -> outcome B) : forall col ys,
  apply f col = Returns ys <-> Forall2 (fun x y => f x = Returns y) col ys.
Proof.
  induction col as [|x col IH]; intros ys; simpl.
  - split; intros H; [inversion H; constructor | inversion H; reflexivity].
  - destruct (f x) as [y|e] eqn:Ef.
    + destruct (apply f col) as [ys'|e] eqn:Ea.
      * split; intros H.
        { inversion H; subst. constructor; [exact Ef|]. now apply IH. }
        { inversion H; subst. apply IH in H4. inversion H4; subst.
          congruence. }
      * split; intros H; [discriminate|].
        inversion H; subst. apply IH in H4. discriminate.
    + split; intros H; [discriminate|]. inversion H; subst. congruence.
Qed.

Lemma apply_total {A B} (f : A -> outcome B) col :
  Forall (fun x => exists y, f x = Returns y) col ->
  exists ys, apply f col = Returns ys.
Proof.
  induction 1 as [|x col [y Hy] _ [ys IH]]; simpl.
  - eauto.
  - rewrite Hy, IH. eauto.
Qed.

Lemma apply_raises {A B} (f : A -> outcome B) col :
  Exists (fun x => f x = Raises IndexError) col ->
  apply f col = Raises IndexError.
Proof.
  induction col as [|x col IH]; intros H; inversion H; subst; simpl.
  - now rewrite H1.
  - destruct (f x) as [y|[]]; [|reflexivity].
    rewrite (IH H1). reflexivity.
Qed.

Lemma blocks_stamps_length data :
  length (blocks data) = length (stamps data).
Proof. apply split_findall_length, pattern_consumes. Qed.

Lemma stamps_blocks_text data :
  data = hd [] (re_split pattern data 0) ++ zip_app (stamps data) (blocks data).
Proof. apply split_findall_text, pattern_consumes. Qed.

(** * The outcome of [preprocess] *)

Lemma preprocess_none data pg :
  stamps data = [] -> preprocess data pg = (Returns None, pg).
Proof.
  intros H. unfold preprocess. fold (stamps data). rewrite H.
  cbn [is_empty]. now rewrite orb_true_r.
Qed.

Lemma firstn_min_same {A B} (a : list A) (b : list B) :
  length a = length b ->
  firstn (Nat.min (length a) (length b)) a = a /\
  firstn (Nat.min (length a) (length b)) b = b.
Proof.
  intros L. rewrite L, Nat.min_id. split; [rewrite <- L|]; apply firstn_all.
Qed.

Lemma preprocess_some data pg :
  stamps data <> [] ->
  preprocess data pg =
  match apply user_of (blocks data), apply message_of (blocks data) with
  | Returns user, Returns message =>
      (Returns (Some (frame (to_datetime (map clean (stamps data)))
                            user message)),
       pg ++ shown data)
  | _, _ => (Raises IndexError, pg ++ shown data)
  end.
Proof.
  intros H. unfold preprocess. fold (stamps data). fold (blocks data).
  cbv zeta.
  destruct (firstn_min_same _ _ (blocks_stamps_length data)) as [-> ->].
  fold clean. unfold shown.
  pose proof (blocks_stamps_length data) as L.
  destruct (stamps data) as [|st sts] eqn:Es; [congruence|].
  destruct (blocks data) as [|b bs] eqn:Eb; [discriminate|].
  cbn [is_empty orb bind M_monad eval].
  destruct (existsb isnull (to_datetime (map clean (st :: sts)))).
  - cbn [st_error].
    destruct (apply user_of (b :: bs)) as [us|[]];
      destruct (apply message_of (b :: bs)) as [ms|[]]; reflexivity.
  - cbn [ret M_monad]. rewrite app_nil_r.
    destruct (apply user_of (b :: bs)) as [us|[]];
      destruct (apply message_of (b :: bs)) as [ms|[]]; reflexivity.
Qed.

Lemma Forall2_nth {A B} (R : A -> B -> Prop) : forall l l' i x,
  Forall2 R l l' -> nth_error l i = Some x ->
  exists y, nth_error l' i = Some y /\ R x y.
Proof.
  induction l as [|a l IH]; intros l' i x H Hn.
  - destruct i; discriminate.
  - inversion H; subst. destruct i as [|i]; simpl in *.
    + inversion Hn; subst. eauto.
    + eapply IH; eauto.
Qed.

Lemma nth_error_same_length {A B} (l : list A) (l' : list B) i x :
  length l = length l' -> nth_error l i = Some x ->
  exists y, nth_error l' i = Some y.
Proof.
  intros L Hn. destruct (nth_error l' i) eqn:E; [eauto|].
  apply nth_error_None in E.
  assert (i < length l) by (apply nth_error_Some; congruence). lia.
Qed.

Lemma iloc_frame date user message i t us ms :
  nth_error date i = Some t -> nth_error user i = Some us ->
  nth_error message i = Some ms ->
  iloc (frame date user message) i = Some (row t us ms).
Proof.
  intros Hd Hu Hm. unfold iloc, frame, dt. cbn [df_date df_user df_message
    df_year df_month df_day df_hour df_minute df_day_name].
  rewrite Hd, Hu, Hm.
  rewrite !(@map_nth_error _ _ _ _ _ _ Hd). reflexivity.
Qed.

(** Every record of a returned frame: its timestamp is the reading of the
    cleaned match, its sender and body come from the block of the same
    index. *)
Lemma preprocess_row data pg df pg' i st b :
  preprocess data pg = (Returns (Some df), pg') ->
  nth_error (stamps data) i = Some st ->
  nth_error (blocks data) i = Some b ->
  exists us ms,
    user_of b = Returns us /\ message_of b = Returns ms /\
    iloc df i = Some (row (strptime (clean st)) us ms).
Proof.
  intros Hp Hs Hb.
  destruct (stamps data) as [|s0 sts] eqn:Es.
  { destruct i; discriminate. }
  rewrite preprocess_some in Hp by congruence.
  destruct (apply user_of (blocks data)) as [user|] eqn:Eu; [|discriminate].
  destruct (apply message_of (blocks data)) as [message|] eqn:Em;
    [|discriminate].
  inversion Hp; subst; clear Hp.
  apply apply_returns in Eu. apply apply_returns in Em.
  destruct (Forall2_nth _ Eu Hb) as (us & Hu & Ru).
  destruct (Forall2_nth _ Em Hb) as (ms & Hm & Rm).
  exists us, ms. repeat split; auto.
  apply iloc_frame; auto.
  unfold to_datetime. rewrite Es.
  erewrite map_nth_error; [reflexivity|].
  erewrite map_nth_error; [reflexivity|exact Hs].
Qed.

Lemma preprocess_nrows data pg df pg' :
  preprocess data pg = (Returns (Some df), pg') ->
  nrows df = length (stamps data) /\ stamps data <> [].
Proof.
  intros Hp.
  destruct (stamps data) as [|s0 sts] eqn:Es.
  { rewrite preprocess_none in Hp by exact Es. discriminate. }
  rewrite preprocess_some in Hp by congruence.
  destruct (apply user_of (blocks data)) as [user|]; [|discriminate].
  destruct (apply message_of (blocks data)) as [message|]; [|discriminate].
  inversion Hp; subst. split; [|discriminate].
  unfold nrows, frame, to_datetime. cbn [df_date].
  rewrite Es. now rewrite !length_map.
Qed.

(** The parse returns a frame exactly when there is a match and every block
    splits; what the timestamps hold plays no part. *)
Lemma preprocess_returns_iff data pg :
  (exists df pg', preprocess data pg = (Returns (Some df), pg')) <->
  stamps data <> [] /\ Forall splits (blocks data).
Proof.
  split.
  - intros (df & pg' & Hp).
    destruct (preprocess_nrows _ _ Hp) as [_ Hne]. split; [exact Hne|].
    rewrite preprocess_some in Hp by exact Hne.
    destruct (apply user_of (blocks data)) as [user|] eqn:Eu; [|discriminate].
    apply apply_returns in Eu. clear Hp.
    induction Eu as [|x y l l' Hxy _ IH]; constructor; auto.
    apply user_of_returns. eauto.
  - intros [Hne Hall]. rewrite preprocess_some by exact Hne.
    destruct (@apply_total _ _ user_of (blocks data)) as [us ->].
    { eapply Forall_impl; [|exact Hall]. intros x. apply user_of_returns. }
    destruct (@apply_total _ _ message_of (blocks data)) as [ms ->].
    { eapply Forall_impl; [|exact Hall]. intros x. apply message_of_returns. }
    eauto.
Qed.

(** A block with a colon and no delimiter makes the parse raise. *)
Lemma preprocess_raises data pg :
  stamps data <> [] -> Exists (fun x => ~ splits x) (blocks data) ->
  preprocess data pg = (Raises IndexError, pg ++ shown data).
Proof.
  intros Hne Hex. rewrite preprocess_some by exact Hne.
  rewrite (@apply_raises _ _ user_of (blocks data)); [reflexivity|].
  eapply Exists_impl; [|exact Hex]. intros x Hx. cbv beta in Hx.
  destruct (user_of x) as [s|[]] eqn:E; [|reflexivity].
  exfalso. apply Hx. apply user_of_returns. eauto.
Qed.

Lemma not_delimited_no_colon x : contains COLON x = false -> ~ delimited x.
Proof. intros H Hd. apply delimited_colon in Hd. congruence. Qed.

Lemma shape_first_delimiter name ws rest :
  name <> [] -> forallb (not_char COLON) name = true -> isspace ws = true ->
  first_delimiter (name ++ COLON :: ws :: rest) [] name rest.
Proof.
  intros Hne Hn Hs. split.
  - exists ws. auto.
  - intros. simpl. lia.
Qed.

Lemma shown_cases data : shown data = [] \/ shown data = [date_warning].
Proof. unfold shown. destruct (existsb _ _); auto. Qed.

Lemma shown_iff data :
  shown data = [date_warning] <->
  exists st, In st (stamps data) /\ strptime (clean st) = None.
Proof.
  unfold shown, to_datetime. rewrite map_map.
  destruct (existsb isnull (map (fun x => strptime (clean x)) (stamps data)))
    eqn:E.
  - split; [intros _|reflexivity].
    apply existsb_exists in E. destruct E as (o & Hin & Ho).
    apply in_map_iff in Hin. destruct Hin as (st & <- & Hin).
    exists st. split; [exact Hin|]. now destruct (strptime (clean st)).
  - split; [discriminate|]. intros (st & Hin & Hst). exfalso.
    assert (existsb isnull (map (fun x => strptime (clean x)) (stamps data))
            = true); [|congruence].
    apply existsb_exists. exists None. split; [|reflexivity].
    apply in_map_iff. eauto.
Qed.

Lemma preprocess_page data :
  exists out, forall pg, preprocess data pg = (out, pg ++ shown data).
Proof.
  destruct (stamps data) as [|s0 sts] eqn:Es.
  - exists (Returns None). intros pg. rewrite preprocess_none by exact Es.
    unfold shown. rewrite Es. simpl. now rewrite app_nil_r.
  - assert (Hne : stamps data <> []) by congruence.
    destruct (apply user_of (blocks data)) as [us|e] eqn:Eu.
    + destruct (apply message_of (blocks data)) as [ms|e] eqn:Em.
      * eexists. intros pg. rewrite preprocess_some, Eu, Em by exact Hne.
        reflexivity.
      * eexists. intros pg. rewrite preprocess_some, Eu, Em by exact Hne.
        reflexivity.
    + eexists. intros pg. rewrite preprocess_some, Eu by exact Hne.
      reflexivity.
Qed.

Lemma row_null t us ms :
  let r := row t us ms in
  (date r = None <-> year r = None) /\ (date r = None <-> month r = None) /\
  (date r = None <-> day r = None) /\ (date r = None <-> hour r = None) /\
  (date r = None <-> minute r = None) /\ (date r = None <-> day_name r = None).
Proof.
  destruct t; simpl; repeat split; intros; congruence.
Qed.

(** * Properties of the parser *)

(** C1, as stated, fails: a record whose sender is the sentinel may come
    from a block that has a name, a colon and a space, when the name itself
    reads "group_notification". *)
Lemma sentinel_iff_counterexample :
  ~ (forall data pg df pg' i b r,
        preprocess data pg = (Returns (Some df), pg') ->
        nth_error (blocks data) i = Some b ->
        iloc df i = Some r ->
        (user r = group_notification <-> ~ delimited b)).
Proof.
  intros H.
  assert (Hd : delimited (u "group_notification: hi")).
  { exists [], group_notification, (u "hi"), SPACE.
    split; [reflexivity|split; [discriminate|split; reflexivity]]. }
  refine (proj1 (H named_as_sentinel [] _ [] 0 (u "group_notification: hi")
                   _ _ _ _) _ Hd);
    [vm_compute; reflexivity | reflexivity | vm_compute; reflexivity
    | reflexivity].
Qed.

(** C1, amended: in every record of a returned frame, a block without a
    delimiter (a run of characters other than a colon, a colon, a
    white-space character) gives the sentinel as sender and the block as
    body; a block with one gives the name before its leftmost delimiter as
    sender and the text after that delimiter as body.  The sender is the
    sentinel exactly when there is no delimiter or that name is the
    sentinel's text. *)
Theorem sender_of_record data pg df pg' i b :
  preprocess data pg = (Returns (Some df), pg') ->
  nth_error (blocks data) i = Some b ->
  exists r,
    iloc df i = Some r /\
    (~ delimited b -> user r = group_notification /\ message r = b) /\
    (forall pre name rest,
        first_delimiter b pre name rest -> user r = name /\ message r = rest) /\
    (user r = group_notification <->
     ~ delimited b \/
     exists pre rest, first_delimiter b pre group_notification rest).
Proof.
  intros Hp Hb.
  destruct (@nth_error_same_length _ _ (blocks data) (stamps data) i b
              (blocks_stamps_length data) Hb) as [st Hs].
  destruct (@preprocess_row data pg df pg' i st b Hp Hs Hb)
    as (us & ms & Hu & Hm & Hr).
  exists (row (strptime (clean st)) us ms). split; [exact Hr|].
  cbn [user message row].
  assert (Hno : ~ delimited b -> us = group_notification /\ ms = b).
  { intros Hd. destruct (contains COLON b) eqn:Hc.
    - destruct (@user_of_raises b Hc Hd) as [E _]. congruence.
    - destruct (@user_of_plain b Hc) as [E1 E2]. split; congruence. }
  assert (Hyes : forall pre name rest,
             first_delimiter b pre name rest -> us = name /\ ms = rest).
  { intros pre name rest Hf. destruct (@user_of_first b pre name rest Hf) as [E1 E2].
    split; congruence. }
  split; [exact Hno|]. split; [exact Hyes|]. split.
  - intros E. destruct (delimited_dec b) as [Hd|Hd]; [right|now left].
    destruct (@first_delimiter_exists b Hd) as (pre & name & rest & Hf).
    destruct (Hyes _ _ _ Hf) as [E1 _]. exists pre, rest. congruence.
  - intros [Hd|(pre & rest & Hf)].
    + apply (Hno Hd).
    + apply (Hyes _ _ _ Hf).
Qed.

Lemma sender_of_record_witness :
  exists r,
    iloc (frame [Some at_0900; Some at_0905] [u " Alice"; u " Bob"]
                [u "Hello" ++ [LF]; u "Hi there"]) 0 = Some r /\
    (~ delimited (u " Alice: Hello" ++ [LF]) ->
     user r = group_notification /\ message r = u " Alice: Hello" ++ [LF]) /\
    (forall pre name rest,
        first_delimiter (u " Alice: Hello" ++ [LF]) pre name rest ->
        user r = name /\ message r = rest) /\
    (user r = group_notification <->
     ~ delimited (u " Alice: Hello" ++ [LF]) \/
     exists pre rest,
       first_delimiter (u " Alice: Hello" ++ [LF]) pre group_notification rest).
Proof.
  apply (@sender_of_record two_messages [] _ [] 0 (u " Alice: Hello" ++ [LF]));
    vm_compute; reflexivity.
Defined.

(** C2: the count fails on a text with two timestamp matches whose second
    block has a colon that no white space follows: [preprocess] raises
    IndexError and returns no record at all. *)
Theorem two_matches_no_record :
  length (stamps subject_change) = 2 /\
  blocks subject_change
  = [u " Alice: Hello" ++ [LF]; u " Bob changed the subject to 10:30"] /\
  preprocess subject_change [] = (Raises IndexError, []).
Proof. vm_compute. auto. Qed.

(** C3: a text in which the timestamp pattern matches nowhere, the empty
    text included, gives [None] and shows nothing. *)
Theorem no_match_gives_none data pg :
  stamps data = [] -> preprocess data pg = (Returns None, pg).
Proof. apply preprocess_none. Qed.

Lemma no_match_gives_none_witness :
  preprocess [] [] = (Returns None, [])
  /\ preprocess (u "hello, world") [] = (Returns None, []).
Proof.
  split; apply no_match_gives_none; vm_compute; reflexivity.
Defined.

(** In a returned frame every timestamp match has its record; the
    record's timestamp is what [to_datetime] reads in the cleaned match, so
    it is null when the match does not fit the format, and each of the six
    calendar fields is null exactly when the timestamp is. *)
Theorem null_timestamp_kept data pg df pg' i st :
  preprocess data pg = (Returns (Some df), pg') ->
  nth_error (stamps data) i = Some st ->
  exists r,
    iloc df i = Some r /\ i < nrows df /\
    date r = strptime (clean st) /\
    (strptime (clean st) = None -> date r = None) /\
    (date r = None <->
     year r = None /\ month r = None /\ day r = None /\ hour r = None /\
     minute r = None /\ day_name r = None) /\
    (date r = None <-> year r = None) /\ (date r = None <-> month r = None) /\
    (date r = None <-> day r = None) /\ (date r = None <-> hour r = None) /\
    (date r = None <-> minute r = None) /\
    (date r = None <-> day_name r = None).
Proof.
  intros Hp Hs.
  assert (L : length (stamps data) = length (blocks data))
    by (symmetry; apply blocks_stamps_length).
  destruct (@nth_error_same_length _ _ (stamps data) (blocks data) i st L Hs)
    as [b Hb].
  destruct (@preprocess_row data pg df pg' i st b Hp Hs Hb)
    as (us & ms & _ & _ & Hr).
  exists (row (strptime (clean st)) us ms). split; [exact Hr|].
  split.
  { destruct (@preprocess_nrows data pg df pg' Hp) as [-> _].
    apply nth_error_Some. congruence. }
  split; [reflexivity|]. split; [auto|].
  destruct (strptime (clean st)); cbn; intuition congruence.
Qed.

Lemma null_timestamp_kept_witness :
  exists r,
    iloc (frame [None] [u " Alice"] [u "Hi"]) 0 = Some r /\
    0 < nrows (frame [None] [u " Alice"] [u "Hi"]) /\
    date r = strptime (clean (u "1/1/2024, 9:00am -")) /\
    (strptime (clean (u "1/1/2024, 9:00am -")) = None -> date r = None) /\
    (date r = None <->
     year r = None /\ month r = None /\ day r = None /\ hour r = None /\
     minute r = None /\ day_name r = None) /\
    (date r = None <-> year r = None) /\ (date r = None <-> month r = None) /\
    (date r = None <-> day r = None) /\ (date r = None <-> hour r = None) /\
    (date r = None <-> minute r = None) /\
    (date r = None <-> day_name r = None).
Proof.
  apply (@null_timestamp_kept long_year [] _ [date_warning] 0
           (u "1/1/2024, 9:00am -")); vm_compute; reflexivity.
Defined.

(** C4: on a text whose one timestamp has a year of four digits and whose
    block has a colon that no white space follows, the timestamp fails the
    format, the warning is shown, and [preprocess] raises IndexError: the
    record with the null timestamp is not in any output. *)
Theorem unparsed_timestamp_no_record :
  stamps long_year_time_of_day = [u "1/1/2024, 9:00am -"] /\
  to_datetime (map clean (stamps long_year_time_of_day)) = [None] /\
  blocks long_year_time_of_day = [u " 10:30"] /\
  forall pg,
    preprocess long_year_time_of_day pg
    = (Raises IndexError, pg ++ [date_warning]).
Proof.
  split; [vm_compute; reflexivity|]. split; [vm_compute; reflexivity|].
  split; [vm_compute; reflexivity|]. intros pg.
  destruct (preprocess_page long_year_time_of_day) as [out H].
  assert (E0 : preprocess long_year_time_of_day []
               = (Raises IndexError, [date_warning]))
    by (vm_compute; reflexivity).
  assert (Es : shown long_year_time_of_day = [date_warning])
    by (vm_compute; reflexivity).
  rewrite H, Es. rewrite H, Es in E0. inversion E0. reflexivity.
Qed.

(** When the text after the delimiter of a block is the media marker and
    the block ends there, the body of the record is that marker, character
    for character. *)
Theorem media_marker_kept data pg df pg' i name ws :
  preprocess data pg = (Returns (Some df), pg') ->
  nth_error (blocks data) i = Some (name ++ COLON :: ws :: media_omitted) ->
  name <> [] -> forallb (not_char COLON) name = true -> isspace ws = true ->
  exists r,
    iloc df i = Some r /\ user r = name /\ message r = media_omitted.
Proof.
  intros Hp Hb Hne Hn Hs.
  destruct (@nth_error_same_length _ _ (blocks data) (stamps data) i _
              (blocks_stamps_length data) Hb) as [st Hst].
  destruct (@preprocess_row data pg df pg' i st _ Hp Hst Hb)
    as (us & ms & Hu & Hm & Hr).
  destruct (@user_of_first _ _ _ _
              (@shape_first_delimiter name ws media_omitted Hne Hn Hs))
    as [E1 E2].
  exists (row (strptime (clean st)) us ms). split; [exact Hr|].
  cbn [user message row]. split; congruence.
Qed.

Lemma media_marker_kept_witness :
  exists r,
    iloc (frame [Some at_0900] [u " Alice"] [media_omitted]) 0 = Some r /\
    user r = u " Alice" /\ message r = media_omitted.
Proof.
  apply (@media_marker_kept media_message [] _ [] 0 (u " Alice") SPACE);
    [vm_compute; reflexivity | vm_compute; reflexivity | discriminate
    | reflexivity | reflexivity].
Defined.

(** C5: the body of a media line that another message follows is the
    marker and the line break after it, not the marker: the test of the
    page for media messages, [message == '<Media omitted>'], finds none in
    a chat that has one. *)
Theorem media_line_keeps_line_break :
  blocks media_then_reply
  = [u " Alice: <Media omitted>" ++ [LF]; u " Bob: Hi there"] /\
  (forall pg,
      preprocess media_then_reply pg
      = (Returns (Some media_then_reply_frame), pg)) /\
  option_map message (iloc media_then_reply_frame 0)
  = Some (media_omitted ++ [LF]) /\
  media_omitted ++ [LF] <> media_omitted /\
  media_messages (filtered_df media_then_reply_frame Overall) = 0 /\
  media_messages (filtered_df media_then_reply_frame (u " Alice")) = 0.
Proof.
  split; [vm_compute; reflexivity|]. split.
  - intros pg. destruct (preprocess_page media_then_reply) as [out H].
    assert (E0 : preprocess media_then_reply []
                 = (Returns (Some media_then_reply_frame), []))
      by (vm_compute; reflexivity).
    assert (Es : shown media_then_reply = []) by (vm_compute; reflexivity).
    rewrite H, Es, app_nil_r. rewrite H, Es in E0. inversion E0. reflexivity.
  - split; [vm_compute; reflexivity|]. split; [discriminate|].
    split; vm_compute; reflexivity.
Qed.

(** C6, as stated, fails: the body of the encryption notice keeps the space
    that follows the timestamp, which [strip] would remove. *)
Lemma notification_trimmed_counterexample :
  ~ (forall data pg df pg' i b r,
        preprocess data pg = (Returns (Some df), pg') ->
        nth_error (blocks data) i = Some b ->
        iloc df i = Some r ->
        ~ delimited b ->
        message r = strip b).
Proof.
  intros H.
  assert (E : message (row (Some at_0900) group_notification
                           (u " Messages and calls are end-to-end encrypted."))
              = strip (u " Messages and calls are end-to-end encrypted.")).
  { apply (H encryption_notice []
             (frame [Some at_0900] [group_notification]
                    [u " Messages and calls are end-to-end encrypted."])
             [] 0);
      [vm_compute; reflexivity | reflexivity | vm_compute; reflexivity |].
    apply not_delimited_no_colon. reflexivity. }
  vm_compute in E. discriminate.
Qed.

(** C6, amended: a record whose block has no delimiter has the sentinel as
    sender and the whole block, untrimmed, as body. *)
Theorem notification_body_whole data pg df pg' i b :
  preprocess data pg = (Returns (Some df), pg') ->
  nth_error (blocks data) i = Some b ->
  ~ delimited b ->
  exists r,
    iloc df i = Some r /\ user r = group_notification /\ message r = b.
Proof.
  intros Hp Hb Hd.
  destruct (@nth_error_same_length _ _ (blocks data) (stamps data) i b
              (blocks_stamps_length data) Hb) as [st Hs].
  destruct (@preprocess_row data pg df pg' i st b Hp Hs Hb)
    as (us & ms & Hu & Hm & Hr).
  exists (row (strptime (clean st)) us ms). split; [exact Hr|].
  cbn [user message row].
  destruct (contains COLON b) eqn:Hc.
  - destruct (@user_of_raises b Hc Hd) as [E _]. congruence.
  - destruct (@user_of_plain b Hc) as [E1 E2]. split; congruence.
Qed.

Lemma notification_body_whole_witness :
  exists r,
    iloc (frame [Some at_0900] [group_notification]
                [u " Messages and calls are end-to-end encrypted."]) 0
    = Some r /\
    user r = group_notification /\
    message r = u " Messages and calls are end-to-end encrypted.".
Proof.
  apply (@notification_body_whole encryption_notice [] _ [] 0
           (u " Messages and calls are end-to-end encrypted."));
    [vm_compute; reflexivity | vm_compute; reflexivity |].
  apply not_delimited_no_colon. vm_compute. reflexivity.
Defined.

(** C7, as stated, fails: no run of [preprocess] on the scenario gives the
    senders "Alice" and "Bob" and the body "Hello". *)
Lemma two_messages_counterexample :
  ~ (exists df pg',
        preprocess two_messages [] = (Returns (Some df), pg') /\
        nrows df = 2 /\
        iloc df 0 = Some (row (Some at_0900) (u "Alice") (u "Hello")) /\
        iloc df 1 = Some (row (Some at_0905) (u "Bob") (u "Hi there"))).
Proof.
  intros (df & pg' & Hp & _ & H0 & _).
  assert (E : preprocess two_messages []
              = (Returns (Some (frame [Some at_0900; Some at_0905]
                                      [u " Alice"; u " Bob"]
                                      [u "Hello" ++ [LF]; u "Hi there"])), []))
    by (vm_compute; reflexivity).
  rewrite E in Hp. inversion Hp; subst. vm_compute in H0. discriminate.
Qed.

(** C7, amended: on the scenario [preprocess] returns exactly two records,
    at 2024-01-01 09:00 and 09:05, with the senders " Alice" and " Bob",
    each with the space that follows the timestamp, and the bodies "Hello"
    with its line break and "Hi there"; nothing is shown. *)
Theorem two_messages_records :
  exists df,
    preprocess two_messages [] = (Returns (Some df), []) /\
    nrows df = 2 /\
    iloc df 0 = Some (row (Some at_0900) (u " Alice") (u "Hello" ++ [LF])) /\
    iloc df 1 = Some (row (Some at_0905) (u " Bob") (u "Hi there")) /\
    iloc df 2 = None.
Proof.
  eexists. split; [vm_compute; reflexivity|]. vm_compute. auto.
Qed.

(** C8, as stated, fails in its example: the body of Alice's record ends
    with the line break that precedes the next timestamp. *)
Lemma two_lines_counterexample :
  ~ (exists df pg' r,
        preprocess two_lines [] = (Returns (Some df), pg') /\
        iloc df 0 = Some r /\
        message r = u "line one" ++ LF :: u "line two").
Proof.
  intros (df & pg' & r & Hp & H0 & Hm).
  assert (E : preprocess two_lines []
              = (Returns (Some (frame [Some at_0900;
                                       Some {| ts_year := 2024; ts_month := 1;
                                               ts_day := 1; ts_hour := 9;
                                               ts_minute := 1 |}]
                                      [u " Alice"; u " Bob"]
                                      [u "line one" ++ LF :: u "line two"
                                         ++ [LF]; u "reply"])), []))
    by (vm_compute; reflexivity).
  rewrite E in Hp. inversion Hp; subst. vm_compute in H0.
  inversion H0; subst. vm_compute in Hm. discriminate.
Qed.

(** C8, amended: the text is its preamble followed by each timestamp match
    and its block, a block running to the next match or to the end of the
    text; the body of a record is all that follows the delimiter in its
    block, every line break kept, the last one included.  On the example
    Alice's body is "line one", "line two" and a closing line break. *)
Theorem body_keeps_lines data pg df pg' i name ws rest :
  preprocess data pg = (Returns (Some df), pg') ->
  nth_error (blocks data) i = Some (name ++ COLON :: ws :: rest) ->
  name <> [] -> forallb (not_char COLON) name = true -> isspace ws = true ->
  data = hd [] (re_split pattern data 0)
         ++ zip_app (stamps data) (blocks data) /\
  exists r,
    iloc df i = Some r /\ message r = rest /\
    count_occ N.eq_dec (message r) LF = count_occ N.eq_dec rest LF.
Proof.
  intros Hp Hb Hne Hn Hs. split; [apply stamps_blocks_text|].
  destruct (@nth_error_same_length _ _ (blocks data) (stamps data) i _
              (blocks_stamps_length data) Hb) as [st Hst].
  destruct (@preprocess_row data pg df pg' i st _ Hp Hst Hb)
    as (us & ms & Hu & Hm & Hr).
  destruct (@user_of_first _ _ _ _
              (@shape_first_delimiter name ws rest Hne Hn Hs)) as [E1 E2].
  exists (row (strptime (clean st)) us ms). split; [exact Hr|].
  cbn [message row]. assert (ms = rest) by congruence. subst. auto.
Qed.

Lemma body_keeps_lines_witness :
  two_lines = hd [] (re_split pattern two_lines 0)
              ++ zip_app (stamps two_lines) (blocks two_lines) /\
  exists r,
    iloc (frame [Some at_0900;
                 Some {| ts_year := 2024; ts_month := 1; ts_day := 1;
                         ts_hour := 9; ts_minute := 1 |}]
                [u " Alice"; u " Bob"]
                [u "line one" ++ LF :: u "line two" ++ [LF]; u "reply"]) 0
    = Some r /\
    message r = u "line one" ++ LF :: u "line two" ++ [LF] /\
    count_occ N.eq_dec (message r) LF
    = count_occ N.eq_dec (u "line one" ++ LF :: u "line two" ++ [LF]) LF.
Proof.
  apply (@body_keeps_lines two_lines [] _ [] 0 (u " Alice") SPACE
           (u "line one" ++ LF :: u "line two" ++ [LF]));
    [vm_compute; reflexivity | vm_compute; reflexivity | discriminate
    | reflexivity | reflexivity].
Defined.

(** C9, as stated, fails: [preprocess] has a side effect, the message it
    shows with [st.error] when a timestamp does not fit the format. *)
Lemma side_effect_counterexample :
  ~ (forall data pg, snd (preprocess data pg) = pg).
Proof.
  intros H. specialize (H long_year []). vm_compute in H. discriminate.
Qed.

(** C9, amended: the outcome of [preprocess] depends on its text alone, not
    on what the page already shows, and nothing is kept between calls; its
    one side effect is the message "Some dates are not properly formatted!",
    shown once, exactly when some timestamp match does not fit the format. *)
Theorem preprocess_function_of_text data :
  exists out,
    (forall pg, preprocess data pg = (out, pg ++ shown data)) /\
    (shown data = [] \/ shown data = [date_warning]) /\
    (shown data = [date_warning] <->
     exists st, In st (stamps data) /\ strptime (clean st) = None).
Proof.
  destruct (preprocess_page data) as [out H]. exists out.
  split; [exact H|]. split; [apply shown_cases | apply shown_iff].
Qed.

(** C10: on a text whose one block is " 10:30", a colon that no white space
    follows, the split has no second element and [preprocess] raises
    IndexError. *)
Theorem colon_without_space_raises :
  stamps time_of_day = [u "1/1/24, 9:00am -"] /\
  blocks time_of_day = [u " 10:30"] /\
  contains COLON (u " 10:30") = true /\
  re_split delim (u " 10:30") 1 = [u " 10:30"] /\
  preprocess time_of_day [] = (Raises IndexError, []).
Proof. vm_compute. repeat split. Qed.

(** * Further properties of [preprocess] *)

Lemma findall_matches r : forall s skip st,
  In st (re_findall_from r s skip) ->
  exists g rest, match_at r (st ++ rest) = Some (g, rest).
Proof.
  induction s as [|c s IH]; intros skip st; [intros []|].
  destruct skip as [|k]; cbn [re_findall_from]; [|apply IH].
  destruct (match_at r (c :: s)) as [[g rest]|] eqn:Hm; [|apply IH].
  intros [E|Hin]; [|eapply IH; exact Hin].
  pose proof (match_at_in _ _ Hm) as Hin. apply m_sound in Hin.
  destruct Hin as (t & Es & _). rewrite Es in E.
  rewrite app_firstn_length in E. subst t. exists g, rest.
  rewrite <- Es. exact Hm.
Qed.

(** The text is what precedes the first match, then each timestamp match
    followed by its block; there are as many blocks as matches, and each
    entry of [dates] is a text the pattern matches in full. *)
Theorem text_is_matches_and_blocks data :
  data = hd [] (re_split pattern data 0)
         ++ zip_app (stamps data) (blocks data) /\
  length (blocks data) = length (stamps data) /\
  forall st, In st (stamps data) ->
             exists rest, match_at pattern (st ++ rest) = Some ([], rest).
Proof.
  split; [apply stamps_blocks_text|]. split; [apply blocks_stamps_length|].
  intros st Hin. apply findall_matches in Hin.
  destruct Hin as (g & rest & Hm). exists rest.
  destruct (@plain_match _ _ _ _ pattern_consumes Hm) as [-> _]. exact Hm.
Qed.

(** The cut of [messages] and [dates] to the shorter length removes
    nothing: the two lists always have the same length. *)
Theorem truncation_keeps_all data :
  let min_len := Nat.min (length (blocks data)) (length (stamps data)) in
  firstn min_len (blocks data) = blocks data /\
  firstn min_len (stamps data) = stamps data /\
  min_len = length (stamps data).
Proof.
  cbv zeta.
  destruct (firstn_min_same _ _ (blocks_stamps_length data)) as [E1 E2].
  split; [exact E1|]. split; [exact E2|].
  rewrite blocks_stamps_length. apply Nat.min_id.
Qed.

Lemma splits_or_not b :
  splits b \/ (contains COLON b = true /\ ~ delimited b).
Proof.
  unfold splits. destruct (contains COLON b) eqn:Hc.
  - destruct (delimited_dec b) as [Hd|Hd]; [left; auto | right; auto].
  - left. discriminate.
Qed.

Lemma Forall_splits_or_Exists l :
  Forall splits l \/
  Exists (fun b => contains COLON b = true /\ ~ delimited b) l.
Proof.
  induction l as [|b l [IH|IH]].
  - left. constructor.
  - destruct (splits_or_not b) as [H|H].
    + left. constructor; assumption.
    + right. constructor. exact H.
  - right. now constructor 2.
Qed.

Lemma Exists_not_splits l :
  Exists (fun b => contains COLON b = true /\ ~ delimited b) l ->
  Exists (fun x => ~ splits x) l.
Proof.
  intros H. eapply Exists_impl; [|exact H].
  intros b [Hc Hd] Hs. apply Hd, Hs, Hc.
Qed.

(** The three outcomes of [preprocess]: [None] exactly when the pattern
    matches nowhere; a frame exactly when it matches and every block either
    has no colon or has a delimiter; IndexError exactly when it matches and
    some block has a colon and no delimiter. *)
Theorem outcome_of_preprocess data pg :
  (fst (preprocess data pg) = Returns None <-> stamps data = []) /\
  ((exists df, fst (preprocess data pg) = Returns (Some df)) <->
   stamps data <> [] /\ Forall splits (blocks data)) /\
  (fst (preprocess data pg) = Raises IndexError <->
   stamps data <> [] /\
   Exists (fun b => contains COLON b = true /\ ~ delimited b) (blocks data)).
Proof.
  destruct (stamps data) as [|s0 sts] eqn:Es.
  - rewrite preprocess_none by exact Es. cbn [fst].
    split; [tauto|]. split.
    + split; [intros [df H]; discriminate | intros [H _]; congruence].
    + split; [discriminate | intros [H _]; congruence].
  - assert (Hne : stamps data <> []) by congruence.
    destruct (Forall_splits_or_Exists (blocks data)) as [Hall|Hex].
    + destruct (proj2 (preprocess_returns_iff data pg) (conj Hne Hall))
        as (df & pg' & Hp).
      rewrite Hp. cbn [fst]. split; [split; [discriminate|congruence]|].
      split.
      * split; [intros _; split; [discriminate|exact Hall] | eauto].
      * split; [discriminate|]. intros [_ Hex]. exfalso.
        apply Exists_not_splits in Hex. apply Exists_exists in Hex.
        destruct Hex as (b & Hin & Hb). rewrite Forall_forall in Hall. auto.
    + rewrite (@preprocess_raises data pg Hne (Exists_not_splits Hex)).
      cbn [fst]. split; [split; [discriminate|congruence]|].
      split.
      * split; [intros [df H]; discriminate|].
        intros [_ Hall]. exfalso.
        apply Exists_not_splits in Hex. apply Exists_exists in Hex.
        destruct Hex as (b & Hin & Hb). rewrite Forall_forall in Hall. auto.
      * split; [intros _; split; [discriminate|exact Hex] | reflexivity].
Qed.

Lemma iloc_some df i r :
  iloc df i = Some r -> nth_error (df_date df) i = Some (date r).
Proof.
  unfold iloc.
  destruct (nth_error (df_date df) i); [|discriminate].
  destruct (nth_error (df_user df) i); [|discriminate].
  destruct (nth_error (df_message df) i); [|discriminate].
  destruct (nth_error (df_year df) i); [|discriminate].
  destruct (nth_error (df_month df) i); [|discriminate].
  destruct (nth_error (df_day df) i); [|discriminate].
  destruct (nth_error (df_hour df) i); [|discriminate].
  destruct (nth_error (df_minute df) i); [|discriminate].
  destruct (nth_error (df_day_name df) i); [|discriminate].
  intros H. inversion H. reflexivity.
Qed.

(** A record of a returned frame is the row of a match and of its block. *)
Lemma record_of_frame data pg df pg' i r :
  preprocess data pg = (Returns (Some df), pg') ->
  iloc df i = Some r ->
  exists st b us ms,
    nth_error (stamps data) i = Some st /\
    nth_error (blocks data) i = Some b /\
    user_of b = Returns us /\ message_of b = Returns ms /\
    r = row (strptime (clean st)) us ms.
Proof.
  intros Hp Hr.
  assert (Hi : i < length (stamps data)).
  { destruct (@preprocess_nrows data pg df pg' Hp) as [<- _].
    apply iloc_some in Hr. unfold nrows. apply nth_error_Some. congruence. }
  destruct (nth_error (stamps data) i) as [st|] eqn:Hs;
    [|apply nth_error_None in Hs; lia].
  assert (L : length (stamps data) = length (blocks data))
    by (symmetry; apply blocks_stamps_length).
  destruct (@nth_error_same_length _ _ (stamps data) (blocks data) i st L Hs)
    as [b Hb].
  destruct (@preprocess_row data pg df pg' i st b Hp Hs Hb)
    as (us & ms & Hu & Hm & Hr').
  exists st, b, us, ms. repeat split; auto. congruence.
Qed.

(** A returned frame is never empty: it has one record for each timestamp
    match, at the indices [0 .. nrows - 1] and nowhere else, and its nine
    columns have the same length. *)
Theorem frame_is_rectangular data pg df pg' :
  preprocess data pg = (Returns (Some df), pg') ->
  1 <= nrows df /\ nrows df = length (stamps data) /\
  (forall i, i < nrows df <-> exists r, iloc df i = Some r) /\
  length (df_user df) = nrows df /\ length (df_message df) = nrows df /\
  length (df_year df) = nrows df /\ length (df_month df) = nrows df /\
  length (df_day df) = nrows df /\ length (df_hour df) = nrows df /\
  length (df_minute df) = nrows df /\ length (df_day_name df) = nrows df.
Proof.
  intros Hp.
  destruct (@preprocess_nrows data pg df pg' Hp) as [Hn Hne].
  split; [rewrite Hn; destruct (stamps data); [congruence|simpl; lia]|].
  split; [exact Hn|]. split.
  - intros i. split.
    + intros Hi. rewrite Hn in Hi.
      destruct (nth_error (stamps data) i) as [st|] eqn:Hs;
        [|apply nth_error_None in Hs; lia].
      assert (L : length (stamps data) = length (blocks data))
        by (symmetry; apply blocks_stamps_length).
      destruct (@nth_error_same_length _ _ (stamps data) (blocks data) i st
                  L Hs) as [b Hb].
      destruct (@preprocess_row data pg df pg' i st b Hp Hs Hb)
        as (us & ms & _ & _ & Hr). eauto.
    + intros [r Hr]. apply iloc_some in Hr. unfold nrows.
      apply nth_error_Some. congruence.
  - rewrite preprocess_some in Hp by exact Hne.
    destruct (apply user_of (blocks data)) as [us|] eqn:Eu; [|discriminate].
    destruct (apply message_of (blocks data)) as [ms|] eqn:Em;
      [|discriminate].
    inversion Hp; subst; clear Hp.
    apply apply_returns, Forall2_length in Eu.
    apply apply_returns, Forall2_length in Em.
    unfold nrows, frame, dt, to_datetime. cbn.
    rewrite !length_map. rewrite <- Eu, <- Em, blocks_stamps_length.
    repeat split; reflexivity.
Qed.

Lemma frame_is_rectangular_witness :
  1 <= nrows (frame [Some at_0900] [u " Alice"] [media_omitted]).
Proof.
  refine (proj1 (@frame_is_rectangular media_message []
                   (frame [Some at_0900] [u " Alice"] [media_omitted]) [] _)).
  vm_compute. reflexivity.
Defined.

Lemma colon_free name :
  forallb (not_char COLON) name = true -> contains COLON name = false.
Proof.
  induction name as [|c name IH]; [reflexivity|].
  cbn [forallb contains existsb]. intros H. apply andb_prop in H.
  destruct H as [Hc Hn]. unfold not_char in Hc.
  rewrite N.eqb_sym. destruct (c =? COLON)%N; [discriminate|].
  apply IH, Hn.
Qed.

(** In every record of a returned frame the sender is not empty and holds
    no colon, and the body is an end part of the block: nothing is added to
    it and nothing inside it is changed. *)
Theorem sender_has_no_colon data pg df pg' i r :
  preprocess data pg = (Returns (Some df), pg') ->
  iloc df i = Some r ->
  user r <> [] /\ contains COLON (user r) = false /\
  exists b p, nth_error (blocks data) i = Some b /\ b = p ++ message r.
Proof.
  intros Hp Hr.
  destruct (@record_of_frame data pg df pg' i r Hp Hr)
    as (st & b & us & ms & Hs & Hb & Hu & Hm & ->).
  cbn [user message row].
  destruct (contains COLON b) eqn:Hc.
  - destruct (delimited_dec b) as [Hd|Hd].
    + destruct (@first_delimiter_exists b Hd) as (pre & name & rest & Hf).
      destruct (@user_of_first b pre name rest Hf) as [E1 E2].
      assert (us = name) by congruence. assert (ms = rest) by congruence.
      subst. destruct Hf as [(ws & Eb & Hne & Hn & _) _].
      split; [exact Hne|]. split; [apply colon_free, Hn|].
      exists b, (pre ++ name ++ [COLON; ws]). split; [exact Hb|].
      rewrite Eb, <- !app_assoc. reflexivity.
    + destruct (@user_of_raises b Hc Hd) as [E _]. congruence.
  - destruct (@user_of_plain b Hc) as [E1 E2].
    assert (us = group_notification) by congruence.
    assert (ms = b) by congruence. subst.
    split; [discriminate|]. split; [reflexivity|].
    exists b, []. auto.
Qed.

Lemma sender_has_no_colon_witness :
  user (row (Some at_0900) (u " Alice") media_omitted) <> [] /\
  contains COLON (user (row (Some at_0900) (u " Alice") media_omitted))
  = false /\
  exists b p, nth_error (blocks media_message) 0 = Some b /\
              b = p ++ message (row (Some at_0900) (u " Alice") media_omitted).
Proof.
  apply (@sender_has_no_colon media_message []
           (frame [Some at_0900] [u " Alice"] [media_omitted]) [] 0);
    vm_compute; reflexivity.
Defined.

(** * What [to_datetime] accepts *)

Lemma in_pbind {A B} (x : parser A) (f : A -> parser B) s b s2 :
  In (b, s2) (bind x f s) <->
  exists a s1, In (a, s1) (x s) /\ In (b, s2) (f a s1).
Proof.
  cbn [bind parser_monad]. rewrite in_flat_map. split.
  - intros ([a s1] & H1 & H2). eauto.
  - intros (a & s1 & H1 & H2). exists (a, s1). auto.
Qed.

Lemma in_sat p c s s' :
  In (c, s') (sat p s) <-> s = c :: s' /\ p c = true.
Proof.
  unfold sat. destruct s as [|c0 s0]; [simpl; split; [tauto|intros [? _]; discriminate]|].
  destruct (p c0) eqn:Hp; simpl.
  - split.
    + intros [H|[]]. inversion H; subst. auto.
    + intros [H Hc]. inversion H; subst. auto.
  - split; [tauto|]. intros [H Hc]. inversion H; subst. congruence.
Qed.

Lemma in_seq1 x t s s' :
  In (t, s') (seq1 x s) <-> exists c, In (c, s') (x s) /\ t = [c].
Proof.
  unfold seq1. rewrite in_pbind. split.
  - intros (c & s1 & H1 & [H|[]]). inversion H; subst. eauto.
  - intros (c & H1 & ->). exists c, s'. split; [exact H1|]. now left.
Qed.

Lemma in_seq2 x y t s s' :
  In (t, s') (seq2 x y s) <->
  exists c1 c2 s1, In (c1, s1) (x s) /\ In (c2, s') (y s1) /\ t = [c1; c2].
Proof.
  unfold seq2. rewrite in_pbind. split.
  - intros (c1 & s1 & H1 & H2). apply in_pbind in H2.
    destruct H2 as (c2 & s2 & H2 & [H|[]]). inversion H; subst.
    exists c1, c2, s1. auto.
  - intros (c1 & c2 & s1 & H1 & H2 & ->). exists c1, s1. split; [exact H1|].
    apply in_pbind. exists c2, s'. split; [exact H2|]. now left.
Qed.

Lemma one_of_in l c : one_of l c = true -> In c l.
Proof.
  unfold one_of. intros H. apply existsb_exists in H.
  destruct H as (x & Hin & Hx). apply N.eqb_eq in Hx. now subst.
Qed.

Lemma in_among a c s s' :
  In (c, s') (among a s) -> s = c :: s' /\ In c (u a).
Proof.
  unfold among. rewrite in_sat. intros [-> H]. split; [reflexivity|].
  now apply one_of_in.
Qed.

Ltac in_list := cbn [In]; repeat first [left; reflexivity | right].

Lemma isspace_cases (c : N) :
  isspace c = true ->
  In c [9; 10; 11; 12; 13; 28; 29; 30; 31; 32; 133; 160; 5760; 8192; 8193;
        8194; 8195; 8196; 8197; 8198; 8199; 8200; 8201; 8202; 8232; 8233;
        8239; 8287; 12288]%N.
Proof.
  unfold isspace, in_range.
  rewrite !orb_true_iff, !andb_true_iff, !N.leb_le, !N.eqb_eq.
  intros H. repeat (destruct H as [H|H]); try (subst c; in_list).
  - assert (E : (c = 9 \/ c = 10 \/ c = 11 \/ c = 12 \/ c = 13)%N) by lia.
    repeat (destruct E as [->|E]; [in_list|]). subst c. in_list.
  - assert (E : (c = 28 \/ c = 29 \/ c = 30 \/ c = 31 \/ c = 32)%N) by lia.
    repeat (destruct E as [->|E]; [in_list|]). subst c. in_list.
  - assert (E : (c = 8192 \/ c = 8193 \/ c = 8194 \/ c = 8195 \/ c = 8196 \/
                 c = 8197 \/ c = 8198 \/ c = 8199 \/ c = 8200 \/ c = 8201 \/
                 c = 8202)%N) by lia.
    repeat (destruct E as [->|E]; [in_list|]). subst c. in_list.
Qed.

Lemma decimal_not_space c : isdecimal c = true -> isspace c = false.
Proof.
  intros Hd. destruct (isspace c) eqn:Hs; [|reflexivity].
  apply isspace_cases in Hs. cbn [In] in Hs.
  repeat (destruct Hs as [<-|Hs]; [vm_compute in Hd; discriminate|]).
  destruct Hs.
Qed.

Lemma decimal_value c :
  isdecimal c = true ->
  exists v, digit_value c = Some v /\ (0 <= v <= 9)%Z.
Proof.
  unfold isdecimal, digit_value. intros H.
  destruct (find (fun r => in_range (fst r) (snd r) c) decimal_ranges)
    as [r|] eqn:Hf.
  - eexists. split; [reflexivity|].
    assert (L : ((c - fst r) mod 10 < 10)%N) by (apply N.mod_lt; discriminate).
    revert L. generalize ((c - fst r) mod 10)%N. intros n L. lia.
  - apply existsb_exists in H. destruct H as (r & Hin & Hr).
    eapply find_none in Hf; [|exact Hin]. cbv beta in Hf. congruence.
Qed.

Lemma decimal_not a c :
  isdecimal a = false -> isdecimal c = true -> not_char a c = true.
Proof.
  intros Ha Hc. unfold not_char. destruct (N.eqb_spec c a); [|reflexivity].
  subst. congruence.
Qed.

Lemma decimals_not a x :
  isdecimal a = false -> forallb isdecimal x = true ->
  forallb (not_char a) x = true.
Proof.
  intros Ha. induction x as [|c x IH]; [reflexivity|].
  cbn [forallb]. intros H. apply andb_prop in H. destruct H as [Hc Hx].
  now rewrite (@decimal_not a c Ha Hc), IH.
Qed.

Lemma py_int_1 c v :
  isspace c = false -> digit_value c = Some v -> py_int [c] = Some v.
Proof.
  intros Hs Hv. unfold py_int, strip, rstrip. cbn [lstrip]. rewrite Hs.
  cbn [rev app lstrip]. rewrite Hs. cbn [rev app fold_left]. rewrite Hv.
  f_equal; lia.
Qed.

Lemma py_int_2 c1 c2 v1 v2 :
  isspace c1 = false -> isspace c2 = false ->
  digit_value c1 = Some v1 -> digit_value c2 = Some v2 ->
  py_int [c1; c2] = Some (10 * v1 + v2)%Z.
Proof.
  intros Hs1 Hs2 Hv1 Hv2. unfold py_int, strip, rstrip. cbn [lstrip].
  rewrite Hs1. cbn [rev app lstrip]. rewrite Hs2. cbn [rev app fold_left].
  rewrite Hv1, Hv2. f_equal; lia.
Qed.

(** What a directive reads: the text it takes, free of the separator that
    follows it, and the number [int] makes of it. *)
Ltac concrete_digits :=
  split; [reflexivity|];
  split; [reflexivity|];
  eexists; split; [vm_compute; reflexivity | lia].

Lemma dir_d_spec s t s' :
  In (t, s') (dir_d s) ->
  s = t ++ s' /\ forallb (not_char (ord "/")) t = true /\
  exists v, py_int t = Some v /\ (1 <= v <= 31)%Z.
Proof.
  unfold dir_d, alt. rewrite !in_app_iff, !in_seq2, in_seq1.
  intros [H|[H|[H|[H|H]]]].
  - destruct H as (c1 & c2 & s1 & H1 & H2 & ->).
    apply in_among in H1. apply in_among in H2.
    destruct H1 as [-> H1]. destruct H2 as [-> H2].
    vm_compute in H1, H2.
    destruct H1 as [<-|[]]. destruct H2 as [<-|[<-|[]]]; concrete_digits.
  - destruct H as (c1 & c2 & s1 & H1 & H2 & ->).
    apply in_among in H1. destruct H1 as [-> H1].
    apply in_sat in H2. destruct H2 as [-> H2].
    destruct (@decimal_value _ H2) as (v2 & Hv2 & Hr).
    pose proof (@decimal_not_space _ H2) as Hs2.
    assert (Hn : not_char (ord "/") c2 = true)
      by (apply decimal_not; [reflexivity|exact H2]).
    vm_compute in H1.
    destruct H1 as [<-|[<-|[]]].
    + split; [reflexivity|]. split; [cbn [forallb]; now rewrite Hn|].
      exists (10 * 1 + v2)%Z. split; [|lia].
      apply py_int_2; auto.
    + split; [reflexivity|]. split; [cbn [forallb]; now rewrite Hn|].
      exists (10 * 2 + v2)%Z. split; [|lia].
      apply py_int_2; auto.
  - destruct H as (c1 & c2 & s1 & H1 & H2 & ->).
    apply in_among in H1. apply in_among in H2.
    destruct H1 as [-> H1]. destruct H2 as [-> H2].
    vm_compute in H1, H2. destruct H1 as [<-|[]].
    repeat (destruct H2 as [<-|H2]; [concrete_digits|]). destruct H2.
  - destruct H as (c1 & H1 & ->).
    apply in_among in H1. destruct H1 as [-> H1]. vm_compute in H1.
    repeat (destruct H1 as [<-|H1]; [concrete_digits|]). destruct H1.
  - destruct H as (c1 & c2 & s1 & H1 & H2 & ->).
    apply in_among in H1. apply in_among in H2.
    destruct H1 as [-> H1]. destruct H2 as [-> H2].
    vm_compute in H1, H2. destruct H1 as [<-|[]].
    repeat (destruct H2 as [<-|H2]; [concrete_digits|]). destruct H2.
Qed.

Lemma dir_m_spec s t s' :
  In (t, s') (dir_m s) ->
  s = t ++ s' /\ forallb (not_char (ord "/")) t = true /\
  exists v, py_int t = Some v /\ (1 <= v <= 12)%Z.
Proof.
  unfold dir_m, alt. rewrite !in_app_iff, !in_seq2, in_seq1.
  intros [H|[H|H]].
  - destruct H as (c1 & c2 & s1 & H1 & H2 & ->).
    apply in_among in H1. apply in_among in H2.
    destruct H1 as [-> H1]. destruct H2 as [-> H2].
    vm_compute in H1, H2. destruct H1 as [<-|[]].
    repeat (destruct H2 as [<-|H2]; [concrete_digits|]). destruct H2.
  - destruct H as (c1 & c2 & s1 & H1 & H2 & ->).
    apply in_among in H1. apply in_among in H2.
    destruct H1 as [-> H1]. destruct H2 as [-> H2].
    vm_compute in H1, H2. destruct H1 as [<-|[]].
    repeat (destruct H2 as [<-|H2]; [concrete_digits|]). destruct H2.
  - destruct H as (c1 & H1 & ->).
    apply in_among in H1. destruct H1 as [-> H1]. vm_compute in H1.
    repeat (destruct H1 as [<-|H1]; [concrete_digits|]). destruct H1.
Qed.

Lemma dir_y_spec s t s' :
  In (t, s') (dir_y s) ->
  s = t ++ s' /\ length t = 2 /\ forallb isdecimal t = true /\
  exists v, py_int t = Some v /\ (0 <= v <= 99)%Z.
Proof.
  unfold dir_y. rewrite in_seq2.
  intros (c1 & c2 & s1 & H1 & H2 & ->).
  apply in_sat in H1. apply in_sat in H2.
  destruct H1 as [-> H1]. destruct H2 as [-> H2].
  destruct (@decimal_value _ H1) as (v1 & Hv1 & Hr1).
  destruct (@decimal_value _ H2) as (v2 & Hv2 & Hr2).
  split; [reflexivity|]. split; [reflexivity|].
  split; [cbn [forallb]; now rewrite H1, H2|].
  exists (10 * v1 + v2)%Z. split; [|lia].
  apply py_int_2; auto using decimal_not_space.
Qed.

Lemma dir_M_spec s t s' :
  In (t, s') (dir_M s) ->
  s = t ++ s' /\ exists v, py_int t = Some v /\ (0 <= v <= 59)%Z.
Proof.
  unfold dir_M, alt. rewrite !in_app_iff, !in_seq2, in_seq1.
  intros [H|H].
  - destruct H as (c1 & c2 & s1 & H1 & H2 & ->).
    apply in_among in H1. destruct H1 as [-> H1].
    apply in_sat in H2. destruct H2 as [-> H2].
    destruct (@decimal_value _ H2) as (v2 & Hv2 & Hr).
    pose proof (@decimal_not_space _ H2) as Hs2.
    split; [reflexivity|]. vm_compute in H1.
    repeat (destruct H1 as [<-|H1];
            [eexists; split;
             [apply py_int_2;
              [reflexivity|exact Hs2|vm_compute; reflexivity|exact Hv2]
             |lia]|]).
    destruct H1.
  - destruct H as (c1 & H1 & ->).
    apply in_sat in H1. destruct H1 as [-> H1].
    destruct (@decimal_value _ H1) as (v1 & Hv1 & Hr).
    split; [reflexivity|]. exists v1. split; [|lia].
    apply py_int_1; auto using decimal_not_space.
Qed.

Lemma in_chr a c s s' : In (c, s') (chr a s) -> s = ord a :: s'.
Proof.
  unfold chr. rewrite in_sat. intros [-> H]. apply N.eqb_eq in H. now subst.
Qed.

Lemma format_regex_spec x f rest :
  In (f, rest) (format_regex x) ->
  (exists tail,
      x = f_d f ++ ord "/" :: f_m f ++ ord "/" :: f_y f ++ ord "," :: tail) /\
  forallb (not_char (ord "/")) (f_d f) = true /\
  forallb (not_char (ord "/")) (f_m f) = true /\
  length (f_y f) = 2 /\ forallb isdecimal (f_y f) = true /\
  (exists v, py_int (f_d f) = Some v /\ (1 <= v <= 31)%Z) /\
  (exists v, py_int (f_m f) = Some v /\ (1 <= v <= 12)%Z) /\
  (exists v, py_int (f_y f) = Some v /\ (0 <= v <= 99)%Z) /\
  (exists v, py_int (f_I f) = Some v /\ (1 <= v <= 12)%Z) /\
  (exists v, py_int (f_M f) = Some v /\ (0 <= v <= 59)%Z).
Proof.
  unfold format_regex. intros H.
  apply in_pbind in H. destruct H as (d & s1 & Hd & H).
  apply in_pbind in H. destruct H as (c1 & s2 & Hc1 & H).
  apply in_pbind in H. destruct H as (mo & s3 & Hmo & H).
  apply in_pbind in H. destruct H as (c2 & s4 & Hc2 & H).
  apply in_pbind in H. destruct H as (y & s5 & Hy & H).
  apply in_pbind in H. destruct H as (c3 & s6 & Hc3 & H).
  apply in_pbind in H. destruct H as (sp1 & s7 & Hsp1 & H).
  apply in_pbind in H. destruct H as (h & s8 & Hh & H).
  apply in_pbind in H. destruct H as (c4 & s9 & Hc4 & H).
  apply in_pbind in H. destruct H as (mi & s10 & Hmi & H).
  apply in_pbind in H. destruct H as (p & s11 & Hp & H).
  apply in_pbind in H. destruct H as (sp2 & s12 & Hsp2 & H).
  apply in_pbind in H. destruct H as (c5 & s13 & Hc5 & H).
  destruct H as [H|[]]. inversion H; subst f rest; clear H.
  cbn [f_d f_m f_y f_I f_M f_p].
  apply dir_d_spec in Hd. destruct Hd as (-> & Nd & Vd).
  apply in_chr in Hc1. subst s1.
  apply dir_m_spec in Hmo. destruct Hmo as (-> & Nmo & Vmo).
  apply in_chr in Hc2. subst s3.
  apply dir_y_spec in Hy. destruct Hy as (-> & Ly & Dy & Vy).
  apply in_chr in Hc3. subst s5.
  apply dir_m_spec in Hh. destruct Hh as (_ & _ & Vh).
  apply dir_M_spec in Hmi. destruct Hmi as (_ & Vmi).
  split; [exists s6; reflexivity|]. auto 12.
Qed.

Lemma hd_error_in {A} (l : list A) a : hd_error l = Some a -> In a l.
Proof. destruct l; simpl; [discriminate|]. intros H. inversion H. auto. Qed.

Lemma days_in_month_le y mo : (28 <= days_in_month y mo <= 31)%Z.
Proof.
  unfold days_in_month.
  destruct (mo =? 2)%Z; [destruct (is_leap y); lia|].
  destruct ((mo =? 4) || (mo =? 6) || (mo =? 9) || (mo =? 11))%Z; lia.
Qed.

(** A timestamp [to_datetime] accepts is a date of the calendar between 1969
    and 2068, with the hour on the 24-hour clock. *)
Lemma strptime_ranges x t :
  strptime x = Some t ->
  (1969 <= ts_year t <= 2068)%Z /\ (1 <= ts_month t <= 12)%Z /\
  (1 <= ts_day t <= days_in_month (ts_year t) (ts_month t))%Z /\
  (0 <= ts_hour t <= 23)%Z /\ (0 <= ts_minute t <= 59)%Z.
Proof.
  unfold strptime.
  destruct (hd_error (format_regex x)) as [[f rest]|] eqn:Hh; [|discriminate].
  destruct rest; [|discriminate].
  apply hd_error_in, format_regex_spec in Hh.
  destruct Hh as (_ & _ & _ & _ & _ & (d & -> & Rd) & (mo & -> & Rmo)
                  & (y & -> & Ry) & (h & -> & Rh) & (mi & -> & Rmi)).
  cbv zeta.
  destruct (d <=? _)%Z eqn:Hday; [|discriminate].
  intros E. inversion E; subst t; clear E. cbn [ts_year ts_month ts_day
    ts_hour ts_minute].
  apply Z.leb_le in Hday.
  split; [destruct (Z.leb_spec y 68); lia|].
  split; [lia|]. split; [lia|]. split; [|lia].
  destruct (is_pm (f_p f)); destruct (Z.eqb_spec h 12); lia.
Qed.

Lemma nth_in_names (l : list string) (k : Z) :
  (0 <= k < Z.of_nat (length l))%Z ->
  In (nth (Z.to_nat k) l EmptyString) l.
Proof. intros H. apply nth_In. lia. Qed.

(** In a record of a returned frame with a timestamp, the year is between
    1969 and 2068, the month name is one of the twelve, the day exists in
    that month, the hour is between 0 and 23, the minute between 0 and 59
    and the day name is one of the seven. *)
Theorem calendar_fields_in_range data pg df pg' i r t :
  preprocess data pg = (Returns (Some df), pg') ->
  iloc df i = Some r ->
  date r = Some t ->
  exists y mn d h mi dn,
    year r = Some y /\ month r = Some mn /\ day r = Some d /\
    hour r = Some h /\ minute r = Some mi /\ day_name r = Some dn /\
    (1969 <= y <= 2068)%Z /\
    nth_error month_names (Z.to_nat (ts_month t - 1)) = Some mn /\
    (1 <= ts_month t <= 12)%Z /\
    (1 <= d <= days_in_month y (ts_month t))%Z /\ (d <= 31)%Z /\
    (0 <= h <= 23)%Z /\ (0 <= mi <= 59)%Z /\ In dn day_names.
Proof.
  intros Hp Hr Ht.
  destruct (@record_of_frame data pg df pg' i r Hp Hr)
    as (st & b & us & ms & Hs & Hb & Hu & Hm & ->).
  cbn [date row] in Ht. cbn [year month day hour minute day_name row].
  rewrite Ht. cbn [option_map].
  destruct (strptime_ranges _ Ht) as (Ry & Rmo & Rd & Rh & Rmi).
  do 6 eexists. repeat (split; [reflexivity|]).
  pose proof (days_in_month_le (ts_year t) (ts_month t)).
  split; [exact Ry|]. split.
  { unfold month_name. apply nth_error_nth'. cbn. lia. }
  split; [exact Rmo|]. split; [exact Rd|]. split; [lia|].
  split; [exact Rh|]. split; [exact Rmi|].
  unfold day_name_of. apply nth_in_names.
  change (Z.of_nat (length day_names)) with 7%Z.
  unfold dayofweek. cbv zeta. apply Z.mod_pos_bound. reflexivity.
Qed.

Lemma calendar_fields_in_range_witness :
  exists y mn d h mi dn,
    year (row (Some at_0900) (u " Alice") media_omitted) = Some y /\
    month (row (Some at_0900) (u " Alice") media_omitted) = Some mn /\
    day (row (Some at_0900) (u " Alice") media_omitted) = Some d /\
    hour (row (Some at_0900) (u " Alice") media_omitted) = Some h /\
    minute (row (Some at_0900) (u " Alice") media_omitted) = Some mi /\
    day_name (row (Some at_0900) (u " Alice") media_omitted) = Some dn /\
    (1969 <= y <= 2068)%Z /\
    nth_error month_names (Z.to_nat (ts_month at_0900 - 1)) = Some mn /\
    (1 <= ts_month at_0900 <= 12)%Z /\
    (1 <= d <= days_in_month y (ts_month at_0900))%Z /\ (d <= 31)%Z /\
    (0 <= h <= 23)%Z /\ (0 <= mi <= 59)%Z /\ In dn day_names.
Proof.
  apply (@calendar_fields_in_range media_message []
           (frame [Some at_0900] [u " Alice"] [media_omitted]) [] 0);
    vm_compute; reflexivity.
Defined.

Lemma lstrip_app x c y :
  isspace c = false -> lstrip (x ++ c :: y) = lstrip x ++ c :: y.
Proof.
  intros Hc. induction x as [|d x IH]; cbn [app lstrip].
  - now rewrite Hc.
  - destruct (isspace d); [exact IH|reflexivity].
Qed.

Lemma rstrip_app a c b :
  isspace c = false -> rstrip (a ++ c :: b) = a ++ c :: rstrip b.
Proof.
  intros Hc. unfold rstrip.
  replace (rev (a ++ c :: b)) with (rev b ++ c :: rev a)
    by (rewrite rev_app_distr; cbn [rev]; now rewrite <- app_assoc).
  rewrite lstrip_app by exact Hc.
  rewrite rev_app_distr. cbn [rev]. rewrite rev_involutive.
  now rewrite <- app_assoc.
Qed.

Lemma lstrip_no_space x :
  forallb (fun c => negb (isspace c)) x = true -> lstrip x = x.
Proof.
  destruct x as [|c x]; [reflexivity|]. cbn [forallb lstrip].
  intros H. apply andb_prop in H. destruct H as [Hc _].
  now destruct (isspace c).
Qed.

Lemma replace_app k n a b :
  replace k n (a ++ b) = replace k n a ++ replace k n b.
Proof. unfold replace. apply flat_map_app. Qed.

Lemma replace_id k n x :
  forallb (not_char k) x = true -> replace k n x = x.
Proof.
  induction x as [|c x IH]; [reflexivity|]. cbn [forallb]. intros H.
  apply andb_prop in H. destruct H as [Hc Hx]. unfold replace in *.
  cbn [flat_map]. unfold not_char in Hc.
  destruct (c =? k)%N; [discriminate|]. cbn [app]. now rewrite IH.
Qed.

Lemma split_unique a x x' t t' :
  forallb (not_char a) x = true -> forallb (not_char a) x' = true ->
  x ++ a :: t = x' ++ a :: t' -> x = x' /\ t = t'.
Proof.
  revert x'. induction x as [|c x IH]; intros [|c' x'] Hx Hx' E;
    cbn [app forallb] in *.
  - inversion E. auto.
  - inversion E; subst. unfold not_char in Hx'. rewrite N.eqb_refl in Hx'.
    discriminate.
  - inversion E; subst. unfold not_char in Hx. rewrite N.eqb_refl in Hx.
    discriminate.
  - inversion E; subst. apply andb_prop in Hx. apply andb_prop in Hx'.
    destruct (IH x' (proj2 Hx) (proj2 Hx') H1) as [-> ->]. auto.
Qed.

(** A date whose year is written with three digits or more does not fit
    [%y]. *)
Lemma strptime_long_year D Mo Y tail :
  forallb isdecimal D = true -> forallb isdecimal Mo = true ->
  forallb isdecimal Y = true -> 3 <= length Y ->
  strptime (D ++ ord "/" :: Mo ++ ord "/" :: Y ++ ord "," :: tail) = None.
Proof.
  intros HD HMo HY LY.
  destruct (strptime _) as [t|] eqn:E; [exfalso|reflexivity].
  unfold strptime in E.
  destruct (hd_error (format_regex _)) as [[f rest]|] eqn:Hh; [|discriminate].
  apply hd_error_in, format_regex_spec in Hh.
  destruct Hh as ((tl & Ex) & Nd & Nm & Ly & Dy & _).
  apply split_unique in Ex;
    [|apply decimals_not; [reflexivity|exact HD] | exact Nd].
  destruct Ex as [_ Ex].
  apply split_unique in Ex;
    [|apply decimals_not; [reflexivity|exact HMo] | exact Nm].
  destruct Ex as [_ Ex].
  apply split_unique in Ex;
    [|apply decimals_not; [reflexivity|exact HY]
     |apply decimals_not; [reflexivity|exact Dy]].
  destruct Ex as [EY _]. rewrite <- EY in Ly. lia.
Qed.

Lemma decimals_no_space x :
  forallb isdecimal x = true ->
  forallb (fun c => negb (isspace c)) x = true.
Proof.
  induction x as [|c x IH]; [reflexivity|]. cbn [forallb]. intros H.
  apply andb_prop in H. destruct H as [Hc Hx].
  now rewrite (@decimal_not_space c Hc), IH.
Qed.

(** Cleaning leaves the date of a match as it is. *)
Lemma clean_date D Mo Y tail :
  forallb isdecimal D = true -> forallb isdecimal Mo = true ->
  forallb isdecimal Y = true ->
  exists tail',
    clean (D ++ ord "/" :: Mo ++ ord "/" :: Y ++ ord "," :: tail)
    = D ++ ord "/" :: Mo ++ ord "/" :: Y ++ ord "," :: tail'.
Proof.
  intros HD HMo HY. unfold clean.
  assert (R : forall k,
             isdecimal k = false -> not_char k (ord "/") = true ->
             not_char k (ord ",") = true ->
             forall t,
               replace k [] (D ++ ord "/" :: Mo ++ ord "/" :: Y
                               ++ ord "," :: t)
               = D ++ ord "/" :: Mo ++ ord "/" :: Y ++ ord "," ::
                   replace k [] t).
  { intros k Hk H1 H2 t.
    change (D ++ ord "/" :: Mo ++ ord "/" :: Y ++ ord "," :: t)
      with (D ++ [ord "/"] ++ Mo ++ [ord "/"] ++ Y ++ [ord ","] ++ t).
    rewrite !replace_app.
    rewrite !(@replace_id k [] D), !(@replace_id k [] Mo),
      !(@replace_id k [] Y), !(@replace_id k [] [ord "/"]),
      !(@replace_id k [] [ord ","]);
      try (apply decimals_not; assumption);
      try (cbn [forallb]; rewrite ?H1, ?H2; reflexivity). }
  rewrite (R NNBSP), (R LRM) by reflexivity.
  eexists. unfold strip.
  change (D ++ ord "/" :: Mo ++ ord "/" :: Y ++ ord "," :: ?t)
    with (D ++ ord "/" :: Mo ++ ord "/" :: Y ++ ord "," :: t).
  rewrite (@lstrip_app D (ord "/")) by reflexivity.
  rewrite lstrip_no_space by (apply decimals_no_space, HD).
  rewrite (@rstrip_app D (ord "/")) by reflexivity.
  rewrite (@rstrip_app Mo (ord "/")) by reflexivity.
  rewrite (@rstrip_app Y (ord ",")) by reflexivity.
  reflexivity.
Qed.

(** The pattern takes a year of two to four digits, the format one of two:
    a match whose year has three or four digits never fits the format.  The
    warning is then shown whatever the outcome of [preprocess] is, and when
    a frame is returned its record for that match has a null timestamp and
    null calendar fields. *)
Theorem long_year_gives_null data pg i D Mo Y tail :
  nth_error (stamps data) i
  = Some (D ++ ord "/" :: Mo ++ ord "/" :: Y ++ ord "," :: tail) ->
  forallb isdecimal D = true -> forallb isdecimal Mo = true ->
  forallb isdecimal Y = true -> 3 <= length Y ->
  snd (preprocess data pg) = pg ++ [date_warning] /\
  forall df,
    fst (preprocess data pg) = Returns (Some df) ->
    exists r,
      iloc df i = Some r /\ date r = None /\ year r = None /\
      month r = None /\ day r = None /\ hour r = None /\ minute r = None /\
      day_name r = None.
Proof.
  intros Hs HD HMo HY LY.
  assert (En : strptime (clean (D ++ ord "/" :: Mo ++ ord "/" :: Y
                                  ++ ord "," :: tail)) = None).
  { destruct (@clean_date D Mo Y tail HD HMo HY) as [tail' ->].
    now apply strptime_long_year. }
  split.
  - destruct (preprocess_page data) as [out H]. rewrite H. cbn [snd].
    f_equal. apply shown_iff. eexists. split; [|exact En].
    eapply nth_error_In. exact Hs.
  - intros df Hf. destruct (preprocess data pg) as [o pg'] eqn:Hp.
    cbn [fst] in Hf. subst o.
    assert (L : length (stamps data) = length (blocks data))
      by (symmetry; apply blocks_stamps_length).
    destruct (@nth_error_same_length _ _ (stamps data) (blocks data) i _ L Hs)
      as [b Hb].
    destruct (@preprocess_row data pg df pg' i _ b Hp Hs Hb)
      as (us & ms & _ & _ & Hr).
    rewrite En in Hr. eexists. split; [exact Hr|]. cbn. repeat split.
Qed.

Lemma long_year_gives_null_witness :
  snd (preprocess long_year_time_of_day []) = [] ++ [date_warning] /\
  snd (preprocess long_year []) = [] ++ [date_warning] /\
  forall df,
    fst (preprocess long_year []) = Returns (Some df) ->
    exists r,
      iloc df 0 = Some r /\ date r = None /\ year r = None /\
      month r = None /\ day r = None /\ hour r = None /\ minute r = None /\
      day_name r = None.
Proof.
  split.
  - apply (@long_year_gives_null long_year_time_of_day [] 0 (u "1") (u "1")
             (u "2024") (u " 9:00am -"));
      [vm_compute; reflexivity | reflexivity | reflexivity | reflexivity
      | vm_compute; lia].
  - apply (@long_year_gives_null long_year [] 0 (u "1") (u "1") (u "2024")
             (u " 9:00am -"));
      [vm_compute; reflexivity | reflexivity | reflexivity | reflexivity
      | vm_compute; lia].
Defined.

(** * What the cleaning of a match does *)

Lemma forallb_impl {A} (f g : A -> bool) l :
  (forall a, f a = true -> g a = true) ->
  forallb f l = true -> forallb g l = true.
Proof.
  intros H. induction l as [|a l IH]; [reflexivity|]. cbn [forallb].
  intros E. apply andb_prop in E. destruct E as [Ha Hl].
  now rewrite (H a Ha), IH.
Qed.

Lemma m_chars r : forall s g rest,
  In (g, rest) (m r s) ->
  exists t, s = t ++ rest /\ forallb (chars_of r) t = true.
Proof.
  induction r as [p|p lo hi|a IHa b IHb|a IHa]; intros s g rest; cbn [m].
  - destruct s as [|c s]; [intros []|].
    destruct (p c) eqn:Hp; [|intros []].
    intros [H|[]]. inversion H; subst. exists [c]. cbn. now rewrite Hp.
  - rewrite in_map_iff. intros (s1 & H & Hin). inversion H; subst.
    apply rep_sound in Hin. destruct Hin as (t & -> & Ht & _). eauto.
  - rewrite in_flat_map. intros ([g1 s1] & H1 & H2).
    rewrite in_map_iff in H2. destruct H2 as ([g2 s2] & H & H2).
    cbn [fst snd] in *. inversion H; subst.
    apply IHa in H1. apply IHb in H2.
    destruct H1 as (t1 & -> & F1). destruct H2 as (t2 & -> & F2).
    exists (t1 ++ t2). rewrite <- app_assoc. split; [reflexivity|].
    rewrite forallb_app. cbn [chars_of]. apply andb_true_intro. split.
    + eapply forallb_impl; [|exact F1]. intros c Hc. now rewrite Hc.
    + eapply forallb_impl; [|exact F2]. intros c Hc. rewrite Hc.
      apply orb_true_r.
  - rewrite in_map_iff. intros ([g1 s1] & H & Hin). cbn [fst snd] in *.
    inversion H; subst. apply IHa in Hin. exact Hin.
Qed.

Lemma cat_last l last : forall s g rest,
  In (g, rest) (m (cat l last) s) ->
  exists t0 s1 g1, s = t0 ++ s1 /\ In (g1, rest) (m last s1).
Proof.
  induction l as [|a l IH]; intros s g rest; cbn [cat].
  - intros H. exists [], s, g. auto.
  - cbn [m]. rewrite in_flat_map. intros ([g1 s1] & H1 & H2).
    rewrite in_map_iff in H2. destruct H2 as ([g2 s2] & H & H2).
    cbn [fst snd] in *. inversion H; subst.
    apply m_sound in H1. destruct H1 as (t1 & -> & _).
    apply IH in H2. destruct H2 as (t0 & s3 & g3 & -> & H3).
    exists (t1 ++ t0), s3, g3. now rewrite <- app_assoc.
Qed.

(** A match of the timestamp pattern starts with a digit, ends with the
    hyphen and holds no left-to-right mark. *)
Lemma match_shape st rest g :
  match_at pattern (st ++ rest) = Some (g, rest) ->
  (exists c x, st = c :: x /\ isdecimal c = true) /\
  (exists z, st = z ++ [ord "-"]) /\
  forallb (not_char LRM) st = true.
Proof.
  intros Hm. apply match_at_in in Hm.
  assert (Lst : 1 <= length st).
  { pose proof (@m_sound pattern _ _ _ Hm) as (t & E & L).
    apply app_inv_tail in E. subst t.
    pose proof (proj1 pattern_consumes). lia. }
  split; [|split].
  - pose proof Hm as H. unfold pattern in H. cbn [cat m digits] in H.
    rewrite in_flat_map in H. destruct H as ([g1 s1] & H1 & _).
    rewrite in_map_iff in H1. destruct H1 as (s1' & E & H1).
    inversion E; subst; clear E. apply rep_sound in H1.
    destruct H1 as (t & E & F & L).
    destruct t as [|c t]; [simpl in L; lia|].
    destruct st as [|c' st]; [simpl in Lst; lia|].
    cbn [app] in E. inversion E; subst. cbn [forallb] in F.
    apply andb_prop in F. exists c, st. tauto.
  - pose proof Hm as H. unfold pattern in H. apply cat_last in H.
    destruct H as (t0 & s1 & g1 & E & H). cbn [m lit] in H.
    destruct s1 as [|c s1]; [destruct H|].
    destruct (is_char (ord "-") c) eqn:Hc; [|destruct H].
    destruct H as [H|[]]. inversion H; subst; clear H.
    apply N.eqb_eq in Hc. subst c. exists t0.
    apply (app_inv_tail rest). rewrite E, <- app_assoc. reflexivity.
  - apply m_chars in Hm. destruct Hm as (t & E & F).
    apply app_inv_tail in E. subst t.
    eapply forallb_impl; [|exact F]. intros c Hc. unfold not_char.
    destruct (N.eqb_spec c LRM); [|reflexivity].
    subst c. vm_compute in Hc. discriminate.
Qed.

Lemma forallb_replace_nil (p : char -> bool) k x :
  forallb p x = true -> forallb p (replace k [] x) = true.
Proof.
  induction x as [|c x IH]; [reflexivity|]. cbn [forallb]. intros H.
  apply andb_prop in H. destruct H as [Hc Hx]. unfold replace in *.
  cbn [flat_map]. destruct (c =? k)%N; cbn [app forallb].
  - apply IH, Hx.
  - now rewrite Hc, IH.
Qed.

Lemma not_contains k x :
  contains k x = false -> forallb (not_char k) x = true.
Proof.
  induction x as [|c x IH]; [reflexivity|].
  cbn [contains existsb forallb]. intros H. apply orb_false_elim in H.
  destruct H as [Hc Hx]. unfold not_char. rewrite N.eqb_sym, Hc.
  apply IH, Hx.
Qed.

(** Of the three steps that clean a match, only the removal of the narrow
    no-break space can change it: a match holds no left-to-right mark and
    has no white space at either end.  A match without narrow no-break
    space is left as it is. *)
Theorem cleaning_only_drops_narrow_space data st :
  In st (stamps data) ->
  clean st = replace NNBSP [] st /\
  replace LRM [] st = st /\ strip st = st /\
  (contains NNBSP st = false -> clean st = st).
Proof.
  intros Hin. apply findall_matches in Hin. destruct Hin as (g & rest & Hm).
  destruct (@match_shape st rest g Hm) as ((c & x & Ec & Hc) & (z & Ez) & Hl).
  pose proof (@decimal_not_space c Hc) as Hsp.
  assert (Hstrip : forall y, (exists c' x', y = c' :: x' /\ isspace c' = false)
                             -> (exists z', y = z' ++ [ord "-"])
                             -> strip y = y).
  { intros y (c' & x' & -> & Hc') (z' & E). unfold strip.
    cbn [lstrip]. rewrite Hc'. rewrite E.
    rewrite rstrip_app by reflexivity. reflexivity. }
  assert (E1 : clean st = replace NNBSP [] st).
  { unfold clean.
    rewrite (@replace_id LRM [] (replace NNBSP [] st))
      by (apply forallb_replace_nil, Hl).
    apply Hstrip.
    - exists c, (replace NNBSP [] x). split; [|exact Hsp].
      rewrite Ec. unfold replace. cbn [flat_map].
      destruct (N.eqb_spec c NNBSP); [|reflexivity].
      subst c. vm_compute in Hc. discriminate.
    - exists (replace NNBSP [] z). rewrite Ez, replace_app. reflexivity. }
  split; [exact E1|]. split; [apply replace_id, Hl|]. split.
  - apply Hstrip; [exists c, x; auto | exists z; exact Ez].
  - intros Hn. rewrite E1. apply replace_id, not_contains, Hn.
Qed.

Lemma cleaning_only_drops_narrow_space_witness :
  clean (u "1/1/24, 9:00" ++ NNBSP :: u "am -")
  = replace NNBSP [] (u "1/1/24, 9:00" ++ NNBSP :: u "am -") /\
  replace LRM [] (u "1/1/24, 9:00" ++ NNBSP :: u "am -")
  = u "1/1/24, 9:00" ++ NNBSP :: u "am -" /\
  strip (u "1/1/24, 9:00" ++ NNBSP :: u "am -")
  = u "1/1/24, 9:00" ++ NNBSP :: u "am -" /\
  (contains NNBSP (u "1/1/24, 9:00" ++ NNBSP :: u "am -") = false ->
   clean (u "1/1/24, 9:00" ++ NNBSP :: u "am -")
   = u "1/1/24, 9:00" ++ NNBSP :: u "am -").
Proof.
  apply (@cleaning_only_drops_narrow_space narrow_space_text).
  vm_compute. left. reflexivity.
Defined.

(** * The page: records of a user and metrics *)

Lemma preprocess_frame data pg df pg' :
  preprocess data pg = (Returns (Some df), pg') ->
  exists us ms,
    df = frame (to_datetime (map clean (stamps data))) us ms /\
    Forall2 (fun b x => user_of b = Returns x) (blocks data) us /\
    Forall2 (fun b x => message_of b = Returns x) (blocks data) ms.
Proof.
  intros Hp.
  destruct (@preprocess_nrows data pg df pg' Hp) as [_ Hne].
  rewrite preprocess_some in Hp by exact Hne.
  destruct (apply user_of (blocks data)) as [us|] eqn:Eu; [|discriminate].
  destruct (apply message_of (blocks data)) as [ms|] eqn:Em; [|discriminate].
  inversion Hp; subst. exists us, ms.
  split; [reflexivity|]. split; now apply apply_returns.
Qed.

Lemma rect_frame dates us ms :
  length us = length dates -> length ms = length dates ->
  rect (frame dates us ms).
Proof.
  intros H1 H2. unfold rect, nrows, frame, dt. cbn. rewrite !length_map.
  auto 10.
Qed.

Lemma rect_preprocess data pg df pg' :
  preprocess data pg = (Returns (Some df), pg') -> rect df.
Proof.
  intros Hp. destruct (preprocess_frame _ _ Hp) as (us & ms & -> & Fu & Fm).
  apply Forall2_length in Fu. apply Forall2_length in Fm.
  apply rect_frame; unfold to_datetime; rewrite !length_map;
    rewrite <- blocks_stamps_length; congruence.
Qed.

Lemma select_length_same {A B} (mask : list bool) :
  forall (col : list A) (col' : list B),
    length col = length col' ->
    length (select mask col) = length (select mask col').
Proof.
  induction mask as [|b mask IH]; intros [|x col] [|y col'] L;
    try reflexivity; try discriminate.
  cbn [select]. destruct b; cbn [length]; [f_equal|]; apply IH;
    simpl in L; lia.
Qed.

Lemma rect_loc df mask : rect df -> rect (loc df mask).
Proof.
  unfold rect, nrows, loc. cbn.
  intros (H1 & H2 & H3 & H4 & H5 & H6 & H7 & H8).
  repeat split; apply select_length_same; assumption.
Qed.

Lemma rect_filtered df sel : rect df -> rect (filtered_df df sel).
Proof.
  intros H. unfold filtered_df. destruct (str_eqb sel Overall); [exact H|].
  now apply rect_loc.
Qed.

Lemma str_eqb_eq x y : str_eqb x y = true <-> x = y.
Proof.
  unfold str_eqb. destruct (list_eq_dec N.eq_dec x y); split; congruence.
Qed.

Lemma select_map_filter {A B} (f : A -> bool) :
  forall (l : list A) (col : list B),
    length col = length l ->
    length (select (map f l) col) = length (filter f l).
Proof.
  induction l as [|a l IH]; intros [|x col] L; try reflexivity;
    try discriminate.
  cbn [map select filter]. destruct (f a); cbn [length]; [f_equal|];
    apply IH; simpl in L; lia.
Qed.

Lemma select_map_self {A} (f : A -> bool) :
  forall l, select (map f l) l = filter f l.
Proof.
  induction l as [|a l IH]; [reflexivity|]. cbn [map select filter].
  destruct (f a); now rewrite IH.
Qed.

(** The number shown as "Media Shared", on a frame with full columns. *)
Lemma media_messages_count fd :
  rect fd ->
  media_messages fd
  = length (filter (fun x => str_eqb x media_omitted) (df_message fd)).
Proof.
  intros (_ & H & _). unfold media_messages, nrows, loc. cbn [df_date].
  apply select_map_filter. unfold nrows in H. congruence.
Qed.

Lemma filter_select_le {A} (f : A -> bool) : forall mask l,
  length (filter f (select mask l)) <= length (filter f l).
Proof.
  induction mask as [|b mask IH]; intros [|a l]; cbn [select filter];
    try (simpl; lia).
  destruct b; cbn [filter]; destruct (f a); cbn [length];
    specialize (IH l); lia.
Qed.

Lemma filter_only_last {A} (f : A -> bool) : forall l,
  (forall i x, nth_error l i = Some x -> S i < length l -> f x = false) ->
  length (filter f l) <= 1.
Proof.
  induction l as [|a l IH]; intros H; [simpl; lia|].
  destruct l as [|a' l'].
  - cbn. destruct (f a); simpl; lia.
  - cbn [filter]. rewrite (H 0 a eq_refl) by (simpl; lia).
    apply IH. intros i x Hx Hi. apply (H (S i) x Hx). simpl in *. lia.
Qed.

Lemma ends_with_lf_not_marker p b' :
  p ++ media_omitted <> b' ++ [LF].
Proof.
  intros E. apply (f_equal (@rev char)) in E.
  rewrite !rev_app_distr in E. vm_compute in E. discriminate.
Qed.

Lemma body_before_line_break b x b' :
  message_of b = Returns x -> b = b' ++ [LF] -> x <> media_omitted.
Proof.
  intros Hm Eb Ex. subst x.
  destruct (contains COLON b) eqn:Hc.
  - destruct (delimited_dec b) as [Hd|Hd].
    + destruct (@first_delimiter_exists b Hd) as (pre & name & rest & Hf).
      destruct (@user_of_first b pre name rest Hf) as [_ E2].
      assert (rest = media_omitted) by congruence. subst rest.
      destruct Hf as [(ws & E & _) _].
      apply (@ends_with_lf_not_marker (pre ++ name ++ [COLON; ws]) b').
      rewrite <- Eb, E, <- !app_assoc. reflexivity.
    + destruct (@user_of_raises b Hc Hd) as [_ E]. congruence.
  - destruct (@user_of_plain b Hc) as [_ E].
    assert (b = media_omitted) by congruence.
    apply (@ends_with_lf_not_marker [] b'). cbn [app]. congruence.
Qed.

(** In an export every message but the last ends with a line break, which
    the body keeps; the test [message == '<Media omitted>'] then holds for
    the last record at most: whatever user is chosen, "Media Shared" is 0
    or 1. *)
Theorem media_shared_at_most_one data pg df pg' selected_user :
  preprocess data pg = (Returns (Some df), pg') ->
  (forall i b, nth_error (blocks data) i = Some b ->
               S i < length (blocks data) -> exists b', b = b' ++ [LF]) ->
  media_messages (filtered_df df selected_user) <= 1.
Proof.
  intros Hp Hlf.
  pose proof (rect_preprocess _ _ Hp) as Hr.
  rewrite media_messages_count by (apply rect_filtered, Hr).
  destruct (preprocess_frame _ _ Hp) as (us & ms & -> & Fu & Fm).
  assert (H1 : length (filter (fun x => str_eqb x media_omitted) ms) <= 1).
  { apply filter_only_last. intros i x Hx Hi.
    destruct (str_eqb x media_omitted) eqn:E; [exfalso|reflexivity].
    apply str_eqb_eq in E.
    assert (L : length ms = length (blocks data))
      by (symmetry; eapply Forall2_length; exact Fm).
    destruct (@nth_error_same_length _ _ ms (blocks data) i x L Hx)
      as [b Hb].
    destruct (Forall2_nth _ Fm Hb) as (x' & Hx' & Hm).
    assert (x' = x) by congruence. subst x'.
    destruct (Hlf i b Hb) as [b' Eb]; [lia|].
    exact (body_before_line_break _ Hm Eb E). }
  unfold filtered_df. destruct (str_eqb selected_user Overall).
  - exact H1.
  - unfold loc, frame. cbn [df_message df_user].
    etransitivity; [apply filter_select_le|exact H1].
Qed.

Lemma media_shared_at_most_one_witness :
  media_messages (filtered_df two_pictures_frame Overall) <= 1.
Proof.
  apply (@media_shared_at_most_one two_pictures [] two_pictures_frame []).
  - vm_compute. reflexivity.
  - intros i b Hb Hi. vm_compute in Hi.
    destruct i as [|[|i]]; [| |exfalso; lia]; vm_compute in Hb;
      inversion Hb; subst;
      match goal with |- exists b', ?l = _ => exists (removelast l) end;
      reflexivity.
Defined.

Lemma select_combine {A B} (f : A -> bool) :
  forall (l : list A) (col : list B),
    length col = length l ->
    select (map f l) col
    = map snd (filter (fun p => f (fst p)) (combine l col)).
Proof.
  induction l as [|a l IH]; intros [|x col] L; try reflexivity;
    try discriminate.
  cbn [map select combine filter fst]. destruct (f a); cbn [map snd];
    [f_equal|]; apply IH; simpl in L; lia.
Qed.

Lemma iloc_user df i r :
  iloc df i = Some r -> nth_error (df_user df) i = Some (user r).
Proof.
  unfold iloc.
  destruct (nth_error (df_date df) i); [|discriminate].
  destruct (nth_error (df_user df) i); [|discriminate].
  destruct (nth_error (df_message df) i); [|discriminate].
  destruct (nth_error (df_year df) i); [|discriminate].
  destruct (nth_error (df_month df) i); [|discriminate].
  destruct (nth_error (df_day df) i); [|discriminate].
  destruct (nth_error (df_hour df) i); [|discriminate].
  destruct (nth_error (df_minute df) i); [|discriminate].
  destruct (nth_error (df_day_name df) i); [|discriminate].
  intros H. inversion H. reflexivity.
Qed.

Lemma filter_count (l : list str) s :
  length (filter (fun x => str_eqb x s) l)
  = count_occ (list_eq_dec N.eq_dec) l s.
Proof.
  induction l as [|a l IH]; [reflexivity|]. cbn [filter count_occ].
  unfold str_eqb at 1.
  destruct (list_eq_dec N.eq_dec a s); cbn [length]; now rewrite IH.
Qed.

(** What a frame filtered for a user holds, its columns being full. *)
Lemma filtered_columns df sel :
  rect df -> str_eqb sel Overall = false ->
  df_user (filtered_df df sel)
  = filter (fun x => str_eqb x sel) (df_user df) /\
  df_message (filtered_df df sel)
  = map snd (filter (fun p => str_eqb (fst p) sel)
                    (combine (df_user df) (df_message df))) /\
  nrows (filtered_df df sel)
  = length (filter (fun x => str_eqb x sel) (df_user df)).
Proof.
  intros (Hu & Hm & _) Hsel. unfold filtered_df. rewrite Hsel.
  unfold loc, nrows. cbn [df_user df_message df_date].
  split; [apply select_map_self|]. split.
  - apply (@select_combine _ _ (fun us => str_eqb us sel)).
    unfold nrows in *. congruence.
  - apply select_map_filter. unfold nrows in Hu. congruence.
Qed.

(** Choosing a user other than "Overall" keeps the records of that sender
    and no other, in their order, with their bodies: every record kept has
    the chosen sender, and "Total Messages" is the number of records of the
    frame with that sender. *)
Theorem records_of_chosen_user data pg df pg' selected_user :
  preprocess data pg = (Returns (Some df), pg') ->
  selected_user <> Overall ->
  (forall j r, iloc (filtered_df df selected_user) j = Some r ->
               user r = selected_user) /\
  total_messages (filtered_df df selected_user)
  = count_occ (list_eq_dec N.eq_dec) (df_user df) selected_user /\
  df_message (filtered_df df selected_user)
  = map snd (filter (fun p => str_eqb (fst p) selected_user)
                    (combine (df_user df) (df_message df))) /\
  rect (filtered_df df selected_user).
Proof.
  intros Hp Hsel.
  pose proof (@rect_preprocess data pg df pg' Hp) as Hr.
  assert (Hs : str_eqb selected_user Overall = false).
  { destruct (str_eqb selected_user Overall) eqn:E; [|reflexivity].
    apply str_eqb_eq in E. contradiction. }
  destruct (@filtered_columns df selected_user Hr Hs) as (Eu & Em & En).
  split; [|split; [|split]].
  - intros j r Hj. apply iloc_user in Hj. rewrite Eu in Hj.
    apply nth_error_In, filter_In in Hj. destruct Hj as [_ Hj].
    now apply str_eqb_eq in Hj.
  - unfold total_messages. rewrite En. apply filter_count.
  - exact Em.
  - apply (@rect_filtered df selected_user Hr).
Qed.

Lemma records_of_chosen_user_witness :
  (forall j r, iloc (filtered_df two_pictures_frame (u " Alice")) j = Some r ->
               user r = u " Alice") /\
  total_messages (filtered_df two_pictures_frame (u " Alice"))
  = count_occ (list_eq_dec N.eq_dec) (df_user two_pictures_frame)
              (u " Alice") /\
  df_message (filtered_df two_pictures_frame (u " Alice"))
  = map snd (filter (fun p => str_eqb (fst p) (u " Alice"))
                    (combine (df_user two_pictures_frame)
                             (df_message two_pictures_frame))) /\
  rect (filtered_df two_pictures_frame (u " Alice")).
Proof.
  apply (@records_of_chosen_user two_pictures [] two_pictures_frame []);
    [vm_compute; reflexivity | discriminate].
Defined.

(** ** The metrics add up over the users *)

Lemma list_sum_step (a : nat) l : list_sum (a :: l) = a + list_sum l.
Proof. reflexivity. Qed.

Lemma list_sum_add {A} (f g : A -> nat) l :
  list_sum (map (fun a => f a + g a) l)
  = list_sum (map f l) + list_sum (map g l).
Proof.
  induction l as [|a l IH]; [reflexivity|].
  change (f a + g a + list_sum (map (fun a => f a + g a) l)
          = f a + list_sum (map f l) + (g a + list_sum (map g l))).
  rewrite IH. lia.
Qed.

Lemma list_sum_indicator (k : str) (c : nat) U :
  NoDup U -> In k U ->
  list_sum (map (fun s => if str_eqb k s then c else 0) U) = c.
Proof.
  induction 1 as [|a U Ha HU IH]; intros Hin; [destruct Hin|].
  cbn [map]; rewrite ?list_sum_step. destruct (str_eqb k a) eqn:E.
  - apply str_eqb_eq in E. subst a.
    assert (Z : list_sum (map (fun s => if str_eqb k s then c else 0) U) = 0).
    { clear IH HU Hin. induction U as [|b U IHU]; [reflexivity|].
      cbn [map]; rewrite ?list_sum_step. destruct (str_eqb k b) eqn:Eb.
      - apply str_eqb_eq in Eb. subst b. exfalso. apply Ha. now left.
      - apply IHU. intros H. apply Ha. now right. }
    lia.
  - destruct Hin as [->|Hin].
    + assert (str_eqb k k = true) by now apply str_eqb_eq. congruence.
    + rewrite (IH Hin). lia.
Qed.

Lemma sum_by_sender (w : str -> nat) U : forall rows : list (str * str),
  NoDup U -> (forall p, In p rows -> In (fst p) U) ->
  list_sum
    (map (fun s =>
            list_sum (map w (map snd (filter (fun p => str_eqb (fst p) s)
                                             rows)))) U)
  = list_sum (map w (map snd rows)).
Proof.
  intros rows HU. induction rows as [|p rows IH]; intros Hin.
  - cbn. induction U as [|a U IHU]; [reflexivity|]. cbn [map]; rewrite ?list_sum_step.
    inversion HU; subst. now rewrite IHU.
  - cbn [filter map]; rewrite ?list_sum_step.
    rewrite <- IH by (intros q Hq; apply Hin; now right).
    rewrite <- (@list_sum_indicator (fst p) (w (snd p)) U HU)
      by (apply Hin; now left).
    rewrite <- list_sum_add. f_equal. apply map_ext. intros s.
    destruct (str_eqb (fst p) s); reflexivity.
Qed.

Lemma unique_from_in seen col x :
  In x (unique_from seen col) <-> In x col /\ ~ In x seen.
Proof.
  revert seen. induction col as [|a col IH]; intros seen; cbn [unique_from].
  - simpl. tauto.
  - destruct (existsb (str_eqb a) seen) eqn:E.
    + apply existsb_exists in E. destruct E as (y & Hy & Ey).
      apply str_eqb_eq in Ey. subst y. rewrite IH. cbn [In]. split.
      * tauto.
      * intros [[->|H] Hn]; [contradiction|tauto].
    + assert (Ha : ~ In a seen).
      { intros H. assert (existsb (str_eqb a) seen = true); [|congruence].
        apply existsb_exists. exists a. split; [exact H|].
        now apply str_eqb_eq. }
      cbn [In]. rewrite IH. cbn [In]. split.
      * intros [->|[H Hn]]; tauto.
      * intros [[->|H] Hn]; [tauto|].
        destruct (list_eq_dec N.eq_dec a x) as [->|Hne]; tauto.
Qed.

Lemma unique_from_NoDup seen col : NoDup (unique_from seen col).
Proof.
  revert seen. induction col as [|a col IH]; intros seen; cbn [unique_from].
  - constructor.
  - destruct (existsb (str_eqb a) seen); [apply IH|].
    constructor; [|apply IH].
    rewrite unique_from_in. cbn [In]. tauto.
Qed.

Lemma unique_in col x : In x (unique col) <-> In x col.
Proof. unfold unique. rewrite unique_from_in. cbn [In]. tauto. Qed.

Lemma unique_NoDup col : NoDup (unique col).
Proof. apply unique_from_NoDup. Qed.

Lemma in_combine_fst {A B} (l : list A) (l' : list B) p :
  In p (combine l l') -> In (fst p) l.
Proof. destruct p as [a b]. apply in_combine_l. Qed.

Lemma length_filter_sum {A} (f : A -> bool) l :
  length (filter f l) = list_sum (map (fun x => if f x then 1 else 0) l).
Proof.
  induction l as [|a l IH]; [reflexivity|]. cbn [filter map]; rewrite ?list_sum_step.
  destruct (f a); cbn [length]; rewrite IH; reflexivity.
Qed.

Lemma length_sum {A} (l : list A) :
  length l = list_sum (map (fun _ => 1) l).
Proof. induction l as [|a l IH]; [reflexivity|].
  cbn [length map]. rewrite list_sum_step, <- IH. reflexivity. Qed.

Lemma map_snd_combine {A B} : forall (l : list A) (l' : list B),
  length l = length l' -> map snd (combine l l') = l'.
Proof.
  induction l as [|a l IH]; intros [|b l'] L; try reflexivity;
    try discriminate.
  cbn [combine map snd]. f_equal. apply IH. simpl in L. lia.
Qed.

(** Each of the four numbers is a sum over the bodies of the frame. *)
Lemma total_messages_sum fd :
  rect fd ->
  total_messages fd = list_sum (map (fun _ => 1) (df_message fd)).
Proof.
  intros (_ & Hm & _). unfold total_messages. rewrite <- Hm.
  apply length_sum.
Qed.

Lemma media_messages_sum fd :
  rect fd ->
  media_messages fd
  = list_sum (map (fun x => if str_eqb x media_omitted then 1 else 0)
                  (df_message fd)).
Proof.
  intros Hr. rewrite (@media_messages_count fd Hr).
  apply length_filter_sum.
Qed.

Lemma link_count_sum fd :
  link_count fd
  = list_sum (map (fun x => if re_search http x then 1 else 0)
                  (df_message fd)).
Proof. apply length_filter_sum. Qed.

(** The numbers shown for "Overall" are the sums, over the users offered,
    of the numbers shown for each of them, as long as no sender is itself
    called "Overall". *)
Theorem metrics_add_up data pg df pg' :
  preprocess data pg = (Returns (Some df), pg') ->
  ~ In Overall (df_user df) ->
  let users := unique (df_user df) in
  let over (metric : DataFrame -> nat) :=
    list_sum (map (fun s => metric (filtered_df df s)) users) in
  total_messages (filtered_df df Overall) = over total_messages /\
  total_words (filtered_df df Overall) = over total_words /\
  media_messages (filtered_df df Overall) = over media_messages /\
  link_count (filtered_df df Overall) = over link_count.
Proof.
  intros Hp Hno users over.
  pose proof (@rect_preprocess data pg df pg' Hp) as Hr.
  assert (Ho : filtered_df df Overall = df).
  { unfold filtered_df.
    replace (str_eqb Overall Overall) with true; [reflexivity|].
    symmetry. now apply str_eqb_eq. }
  rewrite Ho.
  assert (Hs : forall s, In s users -> str_eqb s Overall = false).
  { intros s Hin. apply (proj1 (unique_in (df_user df) s)) in Hin.
    destruct (str_eqb s Overall) eqn:E; [|reflexivity].
    apply str_eqb_eq in E. subst s. destruct (Hno Hin). }
  assert (Hl : length (df_user df) = length (df_message df)).
  { destruct Hr as (Hu & Hm & _). congruence. }
  assert (Hsum : forall (w : str -> nat) (metric : DataFrame -> nat),
             (forall fd, rect fd ->
                         metric fd = list_sum (map w (df_message fd))) ->
             metric df = over metric).
  { intros w metric Hw. unfold over.
    rewrite (Hw df Hr).
    rewrite <- (@map_snd_combine _ _ (df_user df) (df_message df) Hl) at 1.
    rewrite <- (@sum_by_sender w users
                  (combine (df_user df) (df_message df))
                  (unique_NoDup _)).
    - apply f_equal. apply map_ext_in. intros s Hin.
      rewrite (Hw _ (@rect_filtered df s Hr)).
      destruct (@filtered_columns df s Hr (Hs s Hin)) as (_ & Em & _).
      now rewrite Em.
    - intros p Hin. apply (proj2 (unique_in (df_user df) (fst p))). exact (@in_combine_fst _ _ _ _ p Hin). }
  repeat split.
  - apply (Hsum (fun _ => 1)). apply total_messages_sum.
  - apply (Hsum (fun x => length (split x))). reflexivity.
  - apply (Hsum (fun x => if str_eqb x media_omitted then 1 else 0)).
    apply media_messages_sum.
  - apply (Hsum (fun x => if re_search http x then 1 else 0)).
    intros fd _. apply link_count_sum.
Qed.

Lemma metrics_add_up_witness :
  let df := two_pictures_frame in
  let users := unique (df_user df) in
  let over (metric : DataFrame -> nat) :=
    list_sum (map (fun s => metric (filtered_df df s)) users) in
  total_messages (filtered_df df Overall) = over total_messages /\
  total_words (filtered_df df Overall) = over total_words /\
  media_messages (filtered_df df Overall) = over media_messages /\
  link_count (filtered_df df Overall) = over link_count.
Proof.
  apply (@metrics_add_up two_pictures [] two_pictures_frame []).
  - vm_compute; reflexivity.
  - vm_compute. intros [H|[H|[H|[]]]]; discriminate.
Defined.

(** ** Links *)

Lemma match_http s :
  match_at http s <> None <-> exists b, s = u "http" ++ b.
Proof.
  split.
  - intros H.
    destruct s as [|c1 [|c2 [|c3 [|c4 b]]]]; unfold match_at, http, lit in H;
      cbn [cat m flat_map map app fst snd hd_error] in H; unfold is_char in H.
    + (cbn [flat_map map app fst snd hd_error] in H; exfalso; apply H; reflexivity).
    + destruct (c1 =? ord "h")%N; (cbn [flat_map map app fst snd hd_error] in H; exfalso; apply H; reflexivity).
    + destruct (c1 =? ord "h")%N; cbn [flat_map map app fst snd hd_error] in H; [|exfalso; apply H; reflexivity].
      destruct (c2 =? ord "t")%N; (cbn [flat_map map app fst snd hd_error] in H; exfalso; apply H; reflexivity).
    + destruct (c1 =? ord "h")%N; cbn [flat_map map app fst snd hd_error] in H; [|exfalso; apply H; reflexivity].
      destruct (c2 =? ord "t")%N; cbn [flat_map map app fst snd hd_error] in H; [|exfalso; apply H; reflexivity].
      destruct (c3 =? ord "t")%N; (cbn [flat_map map app fst snd hd_error] in H; exfalso; apply H; reflexivity).
    + destruct (N.eqb_spec c1 (ord "h")) as [->|]; cbn [flat_map map app fst snd hd_error] in H; [|exfalso; apply H; reflexivity].
      destruct (N.eqb_spec c2 (ord "t")) as [->|]; cbn [flat_map map app fst snd hd_error] in H; [|exfalso; apply H; reflexivity].
      destruct (N.eqb_spec c3 (ord "t")) as [->|]; cbn [flat_map map app fst snd hd_error] in H; [|exfalso; apply H; reflexivity].
      destruct (N.eqb_spec c4 (ord "p")) as [->|]; cbn [flat_map map app fst snd hd_error] in H; [|exfalso; apply H; reflexivity].
      exists b. reflexivity.
  - intros (b & ->). discriminate.
Qed.

Lemma re_search_http x :
  re_search http x = true <-> exists a b, x = a ++ u "http" ++ b.
Proof.
  induction x as [|c x IH].
  - split; [discriminate|]. intros (a & b & H).
    destruct a; discriminate.
  - cbn [re_search]. destruct (match_at http (c :: x)) as [r|] eqn:E.
    + split; [intros _|reflexivity]. exists [].
      apply match_http. congruence.
    + rewrite IH. split.
      * intros (a & b & ->). exists (c :: a), b. reflexivity.
      * intros (a & b & H). destruct a as [|c' a].
        -- exfalso. assert (M : match_at http (c :: x) <> None).
           { apply match_http. exists b. exact H. }
           congruence.
        -- inversion H; subst. exists a, b. reflexivity.
Qed.

Lemma NoDup_map_S idx : NoDup idx -> NoDup (map S idx).
Proof.
  induction 1 as [|i idx Hi Hn IH]; cbn [map]; constructor; [|exact IH].
  rewrite in_map_iff. intros (j & H & Hj). inversion H; subst. exact (Hi Hj).
Qed.

Lemma filter_positions {A} (f : A -> bool) : forall l : list A,
  exists idx : list nat,
    NoDup idx /\ length idx = length (filter f l) /\
    forall i, In i idx <-> exists x, nth_error l i = Some x /\ f x = true.
Proof.
  induction l as [|a l (idx & Hn & Hl & Hi)].
  - exists []. split; [constructor|]. split; [reflexivity|].
    intros i. split; [intros []|]. intros (x & H & _). destruct i; discriminate.
  - assert (Hs : NoDup (map S idx)).
    { apply NoDup_map_S, Hn. }
    assert (H0 : ~ In 0 (map S idx)).
    { rewrite in_map_iff. intros (j & H & _). discriminate. }
    assert (HS : forall i, In (S i) (map S idx) <-> In i idx).
    { intros i. rewrite in_map_iff. split.
      - intros (j & H & Hj). inversion H; subst. exact Hj.
      - intros H. exists i. auto. }
    cbn [filter]. destruct (f a) eqn:Fa.
    + exists (0 :: map S idx). split; [now constructor|]. split.
      * cbn [length]. now rewrite length_map, Hl.
      * intros [|i]; cbn [In nth_error].
        -- split; [|now left]. intros _. exists a. auto.
        -- rewrite <- Hi, <- HS. split; [|tauto].
           intros [H|H]; [discriminate|exact H].
    + exists (map S idx). split; [exact Hs|]. split.
      * now rewrite length_map, Hl.
      * intros [|i]; cbn [nth_error].
        -- split; [intros H; destruct (H0 H)|].
           intros (x & H & Hx). inversion H; subst. congruence.
        -- rewrite <- Hi. apply HS.
Qed.

(** "Links Shared" is the number of records whose body has the letters
    [http] somewhere in it: a record counts once however many links its body
    holds, and so the number never exceeds that of the messages. *)
Theorem links_shared_counts_records fd :
  (exists idx : list nat,
      NoDup idx /\ length idx = link_count fd /\
      forall i, In i idx <->
                exists x, nth_error (df_message fd) i = Some x /\
                          exists a b, x = a ++ u "http" ++ b) /\
  link_count fd <= length (df_message fd).
Proof.
  split.
  - destruct (filter_positions (re_search http) (df_message fd))
      as (idx & Hn & Hl & Hi).
    exists idx. split; [exact Hn|]. split; [exact Hl|].
    intros i. rewrite Hi. split; intros (x & H & Hx); exists x; split; auto;
      now apply re_search_http.
  - apply filter_length_le.
Qed.

(** ** The users offered *)

Lemma str_ltb_irrefl x : str_ltb x x = false.
Proof.
  induction x as [|c x IH]; [reflexivity|]. cbn [str_ltb].
  now rewrite N.ltb_irrefl, N.eqb_refl, IH.
Qed.

Lemma str_ltb_trans : forall x y z,
  str_ltb x y = true -> str_ltb y z = true -> str_ltb x z = true.
Proof.
  induction x as [|c x IH]; intros [|d y] [|e z]; cbn [str_ltb];
    try discriminate; try reflexivity.
  rewrite !orb_true_iff, !andb_true_iff, !N.ltb_lt, !N.eqb_eq.
  intros [H1|[H1 H1']] [H2|[H2 H2']].
  - left. eapply N.lt_trans; eassumption.
  - left. now rewrite <- H2.
  - left. now rewrite H1.
  - right. split; [congruence|]. eapply IH; eassumption.
Qed.

Lemma str_ltb_total : forall x y,
  str_ltb x y = false -> x <> y -> str_ltb y x = true.
Proof.
  induction x as [|c x IH]; intros [|d y]; cbn [str_ltb]; intros H Hne;
    try reflexivity; try discriminate.
  - now destruct Hne.
  - apply orb_false_iff in H. destruct H as [H1 H2].
    apply N.ltb_ge in H1.
    destruct (N.eqb_spec c d) as [->|Hcd].
    + rewrite N.eqb_refl. cbn [andb] in *.
      rewrite (IH y H2); [apply orb_true_r|]. congruence.
    + apply orb_true_iff. left. apply N.ltb_lt.
      apply N.le_neq. split; [exact H1|congruence].
Qed.

Lemma insert_sorted_in x l z :
  In z (insert_sorted x l) <-> z = x \/ In z l.
Proof.
  induction l as [|y l IH]; cbn [insert_sorted In].
  - split; intros [H|H]; auto.
  - destruct (str_leb x y); cbn [In]; [|rewrite IH]; split; intros H;
      intuition congruence.
Qed.

Lemma sort_in l z : In z (sort l) <-> In z l.
Proof.
  induction l as [|x l IH]; cbn [sort In]; [tauto|].
  rewrite insert_sorted_in, IH. split; intros [H|H]; auto.
Qed.

Lemma insert_sorted_ascending x l :
  ascending l -> ~ In x l -> ascending (insert_sorted x l).
Proof.
  unfold ascending. induction 1 as [|y l Hs IH Hy]; intros Hx;
    cbn [insert_sorted].
  - constructor; constructor.
  - assert (Hxy : x <> y) by (intros ->; apply Hx; now left).
    destruct (str_leb x y) eqn:E; unfold str_leb in E.
    + apply negb_true_iff in E.
      assert (L : str_ltb x y = true)
        by (apply str_ltb_total; [exact E|congruence]).
      constructor; [now constructor|]. constructor; [exact L|].
      rewrite Forall_forall in *. intros z Hz.
      eapply str_ltb_trans; [exact L|]. now apply Hy.
    + apply negb_false_iff in E.
      constructor.
      * apply IH. intros H. apply Hx. now right.
      * rewrite Forall_forall in *. intros z Hz.
        apply insert_sorted_in in Hz. destruct Hz as [->|Hz]; auto.
Qed.

Lemma sort_ascending l : NoDup l -> ascending (sort l).
Proof.
  induction 1 as [|x l Hx Hn IH]; cbn [sort]; [constructor|].
  apply insert_sorted_ascending; [exact IH|]. now rewrite sort_in.
Qed.

Lemma ascending_NoDup l : ascending l -> NoDup l.
Proof.
  induction 1 as [|y l Hs IH Hy]; constructor; [|exact IH].
  intros Hin. rewrite Forall_forall in Hy. apply Hy in Hin.
  now rewrite str_ltb_irrefl in Hin.
Qed.

(** The box offers "Overall" first and then each sender of the frame once,
    in ascending order of their code points (a name before the names it
    starts): a text other than the first entry is offered exactly when some
    record has it as its sender. *)
Theorem user_list_offers_each_sender df :
  exists names,
    user_list df = Overall :: names /\
    ascending names /\
    NoDup names /\
    forall s, In s names <-> In s (df_user df).
Proof.
  exists (sort (unique (df_user df))). split; [reflexivity|].
  assert (A : ascending (sort (unique (df_user df))))
    by apply sort_ascending, unique_NoDup.
  split; [exact A|]. split; [now apply ascending_NoDup|].
  intros s. now rewrite sort_in, unique_in.
Qed.

(** ** Activity by day of the week and by hour *)

Lemma select_map {A B} (f : A -> B) : forall mask (l : list A),
  select mask (map f l) = map f (select mask l).
Proof.
  induction mask as [|b mask IH]; intros [|x l]; try reflexivity.
  cbn [map select]. destruct b; cbn [map]; now rewrite IH.
Qed.

Lemma select_in {A} : forall mask (l : list A) x,
  In x (select mask l) -> In x l.
Proof.
  induction mask as [|b mask IH]; intros [|y l] x; cbn [select];
    try (intros []).
  destruct b; cbn [In]; intros H; [destruct H as [H|H]; auto|]; right;
    now apply IH.
Qed.

(** A frame filtered for a user is again a frame with its calendar columns,
    over some of the timestamps. *)
Lemma filtered_frame dates us ms sel :
  exists dates' us' ms',
    filtered_df (frame dates us ms) sel = frame dates' us' ms' /\
    forall d, In d dates' -> In d dates.
Proof.
  unfold filtered_df. destruct (str_eqb sel Overall).
  - exists dates, us, ms. auto.
  - set (mask := map (fun x => str_eqb x sel) (df_user (frame dates us ms))).
    exists (select mask dates), (select mask us), (select mask ms). split.
    + unfold loc, frame, dt. cbn [df_date df_user df_message df_year df_month
        df_day df_hour df_minute df_day_name].
      now rewrite !select_map.
    + intros d. apply select_in.
Qed.

Section Counts.
Variable A : Type.
Variable eqb : A -> A -> bool.
Hypothesis eqb_eq : forall x y, eqb x y = true <-> x = y.

Lemma sum_indicator (k : A) keys :
  NoDup keys -> In k keys ->
  list_sum (map (fun v => if eqb k v then 1 else 0) keys) = 1.
Proof.
  induction 1 as [|a keys Ha Hn IH]; intros Hin; [destruct Hin|].
  cbn [map]. rewrite list_sum_step. destruct (eqb k a) eqn:E.
  - apply eqb_eq in E. subst a.
    assert (Z : list_sum (map (fun v => if eqb k v then 1 else 0) keys) = 0).
    { clear IH Hn Hin. induction keys as [|b keys IHk]; [reflexivity|].
      cbn [map]. rewrite list_sum_step. destruct (eqb k b) eqn:Eb.
      - apply eqb_eq in Eb. subst b. exfalso. apply Ha. now left.
      - apply IHk. intros H. apply Ha. now right. }
    now rewrite Z.
  - destruct Hin as [->|Hin].
    + assert (eqb k k = true) by now apply eqb_eq. congruence.
    + now rewrite (IH Hin).
Qed.

Lemma sum_zero (keys : list A) :
  list_sum (map (fun _ => 0) keys) = 0.
Proof. induction keys; [reflexivity|]. cbn [map]. now rewrite list_sum_step. Qed.

(** Counting a column value by value counts each entry that is not missing
    once, when the values are all among the labels. *)
Lemma sum_count_value keys : forall col : list (option A),
  NoDup keys -> (forall v, In (Some v) col -> In v keys) ->
  list_sum (map (fun k => count_value eqb k col) keys)
  = length (filter (fun x => negb (isnull x)) col).
Proof.
  intros col Hn. induction col as [|x col IH]; intros Hk.
  - unfold count_value. cbn [filter length]. apply sum_zero.
  - assert (Hk' : forall v, In (Some v) col -> In v keys)
      by (intros v H; apply Hk; now right).
    specialize (IH Hk'). unfold count_value in *. destruct x as [v|].
    + assert (E : forall k,
                 length (filter (is_value eqb k) (Some v :: col))
                 = (if eqb v k then 1 else 0)
                   + length (filter (is_value eqb k) col)).
      { intros k. cbn [filter is_value]. destruct (eqb v k); reflexivity. }
      rewrite (map_ext _ _ E), list_sum_add, IH.
      rewrite (@sum_indicator v keys Hn) by (apply Hk; now left).
      reflexivity.
    + cbn [filter isnull negb is_value]. exact IH.
Qed.

Lemma count_value_pos v (col : list (option A)) :
  In (Some v) col -> 1 <= count_value eqb v col.
Proof.
  intros H. unfold count_value.
  assert (Hin : In (Some v) (filter (is_value eqb v) col)).
  { apply filter_In. split; [exact H|]. now apply eqb_eq. }
  destruct (filter (is_value eqb v) col); [destruct Hin|]. cbn [length]. lia.
Qed.

End Counts.

Lemma day_name_in_order t : In (day_name_of t) dow_order.
Proof.
  unfold day_name_of. apply (@nth_in_names day_names).
  change (Z.of_nat (length day_names)) with 7%Z.
  unfold dayofweek. cbv zeta. apply Z.mod_pos_bound. reflexivity.
Qed.

Lemma dow_order_NoDup : NoDup dow_order.
Proof.
  unfold dow_order. repeat constructor; cbn [In]; intros H;
    repeat (destruct H as [H|H]; [discriminate|]); exact H.
Qed.

Lemma filter_dt {B} (f : Timestamp -> B) dates :
  length (filter (fun x => negb (isnull x)) (dt f dates))
  = length (filter (fun x => negb (isnull x)) dates).
Proof.
  unfold dt. induction dates as [|[t|] dates IH]; cbn; congruence.
Qed.

Lemma count_dt {A B} (eqb : B -> B -> bool) (f : A -> B) v
      (col : list (option A)) :
  count_value eqb v (map (option_map f) col)
  = length (filter (fun x => match x with
                             | Some t => eqb (f t) v
                             | None => false
                             end) col).
Proof.
  unfold count_value.
  induction col as [|[t|] col IH]; cbn [map option_map filter is_value];
    [reflexivity| |exact IH].
  destruct (eqb (f t) v); cbn [length]; now rewrite IH.
Qed.

Lemma day_name_index i d k :
  nth_error dow_order i = Some d -> (0 <= k < 7)%Z ->
  String.eqb (nth (Z.to_nat k) day_names EmptyString) d
  = (k =? Z.of_nat i)%Z.
Proof.
  intros Hd Hk.
  assert (Ek : (k = 0 \/ k = 1 \/ k = 2 \/ k = 3 \/ k = 4 \/ k = 5
                \/ k = 6)%Z) by lia.
  do 7 (destruct i as [|i];
        [inversion Hd; subst d;
         repeat (destruct Ek as [->|Ek]; [reflexivity|]); subst k; reflexivity
        |]).
  destruct i; discriminate.
Qed.

Lemma count_day_name i d fd dates :
  nth_error dow_order i = Some d -> df_date fd = dates ->
  count_value String.eqb d (dt day_name_of dates) = records_on_day i fd.
Proof.
  intros Hd <-. unfold dt, records_on_day. rewrite count_dt.
  f_equal. induction (df_date fd) as [|[t|] col IH]; cbn [filter];
    [reflexivity| |exact IH].
  unfold day_name_of at 1.
  rewrite (@day_name_index i d _ Hd)
    by (unfold dayofweek; cbv zeta; apply Z.mod_pos_bound; reflexivity).
  now rewrite IH.
Qed.

(** The chart of the days of the week has the seven days in the order of
    [dow_order], and the bar of each day is the number of records whose
    timestamp falls on that day of the week: a day on which none falls
    shows no number (never 0).  The numbers add up to the number of records
    with a timestamp; a record whose timestamp failed to parse is in no
    bar. *)
Theorem day_chart_counts_dated_records data pg df pg' selected_user :
  preprocess data pg = (Returns (Some df), pg') ->
  let fd := filtered_df df selected_user in
  let chart := day_activity fd in
  map fst chart = dow_order /\
  (forall i d,
      nth_error dow_order i = Some d ->
      nth_error chart i
      = Some (d, if Nat.eqb (records_on_day i fd) 0 then None
                 else Some (records_on_day i fd))) /\
  Forall (fun bar => snd bar <> Some 0) chart /\
  list_sum (map (fun bar => match snd bar with Some n => n | None => 0 end)
                chart)
  = dated fd.
Proof.
  intros Hp fd chart.
  destruct (@preprocess_frame data pg df pg' Hp) as (us & ms & -> & _ & _).
  destruct (filtered_frame (to_datetime (map clean (stamps data))) us ms
                           selected_user) as (ds & us' & ms' & E & _).
  subst chart fd. rewrite E. unfold day_activity, dated.
  cbn [frame df_day_name df_date]. split; [|split; [|split]].
  - rewrite map_map. cbn [fst]. apply map_id.
  - intros i d Hd. rewrite nth_error_map, Hd. cbn [option_map].
    rewrite (@count_day_name i d (frame ds us' ms') ds Hd eq_refl).
    reflexivity.
  - apply Forall_forall. intros bar Hin. apply in_map_iff in Hin.
    destruct Hin as (d & <- & _). cbn [snd].
    destruct (Nat.eqb_spec (count_value String.eqb d (dt day_name_of ds)) 0);
      congruence.
  - rewrite map_map. cbn [snd].
    rewrite <- (filter_dt day_name_of).
    rewrite <- (@sum_count_value string String.eqb String.eqb_eq dow_order
                  (dt day_name_of ds) dow_order_NoDup).
    + apply f_equal. apply map_ext. intros d.
      destruct (Nat.eqb_spec (count_value String.eqb d (dt day_name_of ds)) 0);
        congruence.
    + intros v Hin. unfold dt in Hin. apply in_map_iff in Hin.
      destruct Hin as ([t|] & Ht & _); [|discriminate].
      inversion Ht. apply day_name_in_order.
Qed.

Lemma day_chart_counts_dated_records_witness :
  let fd := filtered_df one_undated_frame Overall in
  let chart := day_activity fd in
  map fst chart = dow_order /\
  (forall i d,
      nth_error dow_order i = Some d ->
      nth_error chart i
      = Some (d, if Nat.eqb (records_on_day i fd) 0 then None
                 else Some (records_on_day i fd))) /\
  Forall (fun bar => snd bar <> Some 0) chart /\
  list_sum (map (fun bar => match snd bar with Some n => n | None => 0 end)
                chart)
  = dated fd.
Proof.
  apply (@day_chart_counts_dated_records one_undated [] one_undated_frame
           [date_warning]).
  vm_compute; reflexivity.
Defined.

Lemma insert_index_in x l z :
  In z (insert_index x l) <-> z = x \/ In z l.
Proof.
  induction l as [|y l IH]; cbn [insert_index In].
  - split; intros [H|H]; auto.
  - destruct (Z.ltb_spec x y) as [L|L];
      [cbn [In]; split; intros H; intuition congruence|].
    destruct (Z.eqb_spec x y) as [->|Hne]; cbn [In].
    + split; [auto|]. intros [->|H]; auto.
    + rewrite IH. split; intros H; intuition congruence.
Qed.

Lemma insert_index_sorted x l :
  StronglySorted Z.lt l -> StronglySorted Z.lt (insert_index x l).
Proof.
  induction 1 as [|y l Hs IH Hy]; cbn [insert_index].
  - constructor; constructor.
  - destruct (Z.ltb_spec x y) as [L|L].
    + constructor; [now constructor|]. constructor; [exact L|].
      rewrite Forall_forall in *. intros z Hz. specialize (Hy z Hz). lia.
    + destruct (Z.eqb_spec x y) as [->|Hne]; [now constructor|].
      constructor; [exact IH|].
      rewrite Forall_forall in *. intros z Hz.
      apply insert_index_in in Hz. destruct Hz as [->|Hz]; [lia|auto].
Qed.

Lemma sorted_index_in col v : In v (sorted_index col) <-> In (Some v) col.
Proof.
  induction col as [|[w|] col IH]; cbn [sorted_index In].
  - tauto.
  - rewrite insert_index_in, IH. split; intros [H|H]; auto.
    + left. congruence.
    + left. congruence.
  - rewrite IH. split; [auto|]. intros [H|H]; [discriminate|exact H].
Qed.

Lemma sorted_index_sorted col : StronglySorted Z.lt (sorted_index col).
Proof.
  induction col as [|[w|] col IH]; cbn [sorted_index];
    [constructor| |exact IH].
  now apply insert_index_sorted.
Qed.

Lemma sorted_NoDup l : StronglySorted Z.lt l -> NoDup l.
Proof.
  induction 1 as [|y l Hs IH Hy]; constructor; [|exact IH].
  intros Hin. rewrite Forall_forall in Hy. apply Hy in Hin. lia.
Qed.

Lemma count_value_in {A} (eqb : A -> A -> bool)
      (eqb_eq : forall x y, eqb x y = true <-> x = y) v
      (col : list (option A)) :
  1 <= count_value eqb v col -> In (Some v) col.
Proof.
  unfold count_value. intros H.
  destruct (filter (is_value eqb v) col) as [|x l] eqn:E;
    [cbn in H; lia|].
  assert (Hin : In x (filter (is_value eqb v) col)) by (rewrite E; now left).
  apply filter_In in Hin. destruct Hin as [Hin Hx].
  destruct x as [y|]; [|discriminate]. cbn [is_value] in Hx.
  apply eqb_eq in Hx. now subst y.
Qed.

(** The chart of the hours has a point for an hour exactly when some record
    has a timestamp with that hour, and the point's number is the number of
    those records; the points are by ascending hour, each hour between 0 and
    23, and the numbers add up to the number of records with a timestamp. *)
Theorem hour_chart_counts_dated_records data pg df pg' selected_user :
  preprocess data pg = (Returns (Some df), pg') ->
  let fd := filtered_df df selected_user in
  let chart := hourly_activity fd in
  StronglySorted Z.lt (map fst chart) /\
  (forall h n, In (h, n) chart <-> n = records_in_hour h fd /\ 1 <= n) /\
  Forall (fun pt => (0 <= fst pt <= 23)%Z) chart /\
  list_sum (map snd chart) = dated fd.
Proof.
  intros Hp fd chart.
  destruct (@preprocess_frame data pg df pg' Hp) as (us & ms & -> & _ & _).
  destruct (filtered_frame (to_datetime (map clean (stamps data))) us ms
                           selected_user) as (ds & us' & ms' & E & Hds).
  subst chart fd. rewrite E. unfold hourly_activity, dated, records_in_hour.
  cbn [frame df_hour df_date].
  assert (Hc : forall h,
             count_value Z.eqb h (dt ts_hour ds)
             = length (filter (fun x => match x with
                                        | Some t => (ts_hour t =? h)%Z
                                        | None => false
                                        end) ds))
    by (intros h; apply count_dt).
  split; [|split; [|split]].
  - rewrite map_map. cbn [fst]. rewrite map_id. apply sorted_index_sorted.
  - intros h n. rewrite in_map_iff. split.
    + intros (h' & Eq & Hin). inversion Eq; subst h' n.
      split; [apply Hc|]. apply sorted_index_in in Hin.
      apply (@count_value_pos Z Z.eqb Z.eqb_eq h _ Hin).
    + intros [-> Hn]. exists h. rewrite Hc. split; [reflexivity|].
      apply sorted_index_in. rewrite <- Hc in Hn.
      apply (@count_value_in Z Z.eqb Z.eqb_eq h _ Hn).
  - apply Forall_forall. intros pt Hin. apply in_map_iff in Hin.
    destruct Hin as (h & <- & Hh). cbn [fst].
    apply sorted_index_in in Hh.
    unfold dt in Hh. apply in_map_iff in Hh.
    destruct Hh as ([t|] & Ht & Hin); [|discriminate].
    inversion Ht; subst h. apply Hds in Hin.
    unfold to_datetime in Hin. apply in_map_iff in Hin.
    destruct Hin as (x & Hx & _).
    apply (@strptime_ranges x t Hx).
  - rewrite map_map. cbn [snd].
    rewrite <- (filter_dt ts_hour).
    apply (@sum_count_value Z Z.eqb Z.eqb_eq).
    + apply sorted_NoDup, sorted_index_sorted.
    + intros v. apply sorted_index_in.
Qed.

Lemma hour_chart_counts_dated_records_witness :
  let fd := filtered_df one_undated_frame Overall in
  let chart := hourly_activity fd in
  StronglySorted Z.lt (map fst chart) /\
  (forall h n, In (h, n) chart <-> n = records_in_hour h fd /\ 1 <= n) /\
  Forall (fun pt => (0 <= fst pt <= 23)%Z) chart /\
  list_sum (map snd chart) = dated fd.
Proof.
  apply (@hour_chart_counts_dated_records one_undated [] one_undated_frame
           [date_warning]).
  vm_compute; reflexivity.
Defined.

(** ** Words *)

Lemma split_from_word : forall w cur,
  forallb (fun c => negb (isspace c)) w = true ->
  split_from w cur = if is_empty (rev cur ++ w) then [] else [rev cur ++ w].
Proof.
  induction w as [|c w IH]; intros cur Hw; cbn [split_from].
  - rewrite app_nil_r. destruct cur as [|d cur]; [reflexivity|].
    cbn [is_empty rev]. destruct (rev cur ++ [d]) eqn:E; [|reflexivity].
    destruct (rev cur); discriminate.
  - cbn [forallb] in Hw. apply andb_true_iff in Hw. destruct Hw as [Hc Hw].
    apply negb_true_iff in Hc. rewrite Hc, (IH _ Hw). cbn [rev].
    now rewrite <- app_assoc.
Qed.

Lemma split_from_space : forall a cur c b,
  isspace c = true ->
  split_from (a ++ c :: b) cur = split_from a cur ++ split_from b [].
Proof.
  induction a as [|d a IH]; intros cur c b Hc.
  - cbn [app split_from]. rewrite Hc. now destruct (is_empty cur).
  - cbn [app split_from]. destruct (isspace d).
    + destruct (is_empty cur); cbn [app]; now rewrite IH.
    + now apply IH.
Qed.

Lemma split_from_nil : forall x cur,
  split_from x cur = [] <-> cur = [] /\ forallb isspace x = true.
Proof.
  induction x as [|c x IH]; intros cur; cbn [split_from forallb].
  - destruct cur; cbn [is_empty]; split; try tauto; try discriminate.
    intros [H _]. discriminate.
  - destruct (isspace c); cbn [andb].
    + destruct cur as [|d cur]; cbn [is_empty].
      * rewrite IH. tauto.
      * split; [discriminate|]. intros [H _]. discriminate.
    + rewrite IH. split; intros [H H']; discriminate.
Qed.

Lemma list_sum_zero l : list_sum l = 0 <-> Forall (fun n => n = 0) l.
Proof.
  induction l as [|a l IH]; [split; constructor|].
  rewrite list_sum_step. split.
  - intros H. constructor; [lia|]. apply IH. lia.
  - intros H. inversion H; subst. apply IH in H3. lia.
Qed.

(** The words [x.split()] counts are the runs of characters other than
    white space: a text without white space is one word (none when it is
    empty), and a white-space character ends the word before it, so that
    the words of a text are those of what is before such a character
    followed by those of what is after it.  "Total Words" is 0 exactly when
    every body is white space only. *)
Theorem words_are_runs_between_spaces :
  split [] = [] /\
  (forall w, w <> [] -> forallb (fun c => negb (isspace c)) w = true ->
             split w = [w]) /\
  (forall a c b, isspace c = true -> split (a ++ c :: b) = split a ++ split b)
  /\
  (forall fd, total_words fd = 0 <->
              Forall (fun x => forallb isspace x = true) (df_message fd)).
Proof.
  split; [reflexivity|]. split; [|split].
  - intros w Hne Hw. unfold split. rewrite (@split_from_word w [] Hw).
    cbn [rev app]. destruct w; [now destruct Hne|reflexivity].
  - intros a c b Hc. apply split_from_space, Hc.
  - intros fd. unfold total_words. rewrite list_sum_zero, Forall_map.
    rewrite !Forall_forall. split; intros H x Hin; specialize (H x Hin).
    + apply length_zero_iff_nil in H. now apply split_from_nil in H.
    + apply length_zero_iff_nil. apply split_from_nil. auto.
Qed.

Lemma words_are_runs_between_spaces_witness :
  split (u "Hello" ++ SPACE :: u "there")
  = split (u "Hello") ++ split (u "there").
Proof.
  apply (proj1 (proj2 (proj2 words_are_runs_between_spaces))). reflexivity.
Defined.
